(** * Tool-use hooks: the pre-invocation guard and the audit recorders

    A shallow embedding of [advanced/hooks/pre_tool_use.py] and
    [advanced/hooks/post_tool_use.py], and what holds of them.

    - [PyStr]: the operations on [str] the hooks use ([in], [split], [join]).
    - [Re]: the fragment of Python's [re] the hooks' patterns are written
      in, as a backtracking matcher and as a relation, proved to agree.
    - [Py]: JSON values as [json.load] builds them, exceptions, files.
    - [AuditRecorder]: the body of the two logging functions.
    - [PreToolUse], [PostToolUse]: the two hooks, function by function.

    What is taken from Python and the machine, and how:
    - text is over the code points below 256 (Rocq's [ascii]), and the
      character classes ([\s], [\w], [str.isspace]) are Python's on them;
    - a text is known by what [json.load] makes of it: the serialisation
      of a value, which loads back as the value; a text that raises
      [JSONDecodeError]; or one on which [json.load] raises something
      else ([UnicodeDecodeError], [RecursionError], [ValueError]);
    - the logs directory is missing, and then can be made or not, or is
      there, a map from file names to files that may be unreadable or
      unwritable; at a name without a file the machine may take a new
      file, refuse it, or fail even to look; a write may break after the
      file was opened, and so emptied;
    - a Python exception that nothing catches ends the process with
      status 1. *)

From Stdlib Require Import String Ascii ZArith NArith Bool List DecimalString.
From stdpp Require Import base option gmap strings.
Import ListNotations.

Local Open Scope Z_scope.

(* [simpl] unfolds an append whose first argument starts with a character. *)
#[local] Arguments String.append !s1 s2.

(* ===================================================================== *)
(** ** Python strings *)
(* ===================================================================== *)

Module PyStr.

Definition code (c : ascii) : N := N_of_ascii c.

Definition in_range (lo hi : N) (c : ascii) : bool :=
  ((lo <=? code c) && (code c <=? hi))%N.

Definition is_code (n : N) (c : ascii) : bool := (code c =? n)%N.

(** [str.isspace] on one character, which is also what [\s] matches and
    what [str.split()] splits on: TAB..CR, FS..US, space, NEL, NBSP. *)
Definition is_space (c : ascii) : bool :=
  in_range 9 13 c || in_range 28 32 c || is_code 133 c || is_code 160 c.

(** [\w]: alphanumeric or underscore. Above 127 the alphanumerics are
    the letters, superscript digits and fractions of Latin-1. *)
Definition is_word (c : ascii) : bool :=
  in_range 48 57 c || in_range 65 90 c || in_range 97 122 c || is_code 95 c
  || is_code 170 c || in_range 178 179 c || is_code 181 c
  || in_range 185 186 c || in_range 188 190 c
  || in_range 192 214 c || in_range 216 246 c || in_range 248 255 c.

(** [needle in hay] for two strings. *)
Fixpoint contains (needle hay : string) : bool :=
  String.prefix needle hay
  || match hay with
     | String _ hay' => contains needle hay'
     | EmptyString => false
     end.

(** [sep.join(words)]. *)
Fixpoint join (sep : string) (words : list string) : string :=
  match words with
  | [] => EmptyString
  | [w] => w
  | w :: ws => w +:+ sep +:+ join sep ws
  end.

Definition snoc (s : string) (c : ascii) : string := s +:+ String c EmptyString.

Definition flush (cur : string) (rest : list string) : list string :=
  match cur with
  | EmptyString => rest
  | _ => cur :: rest
  end.

(** [s.split()] with the word read so far in [cur]: runs of white space
    separate the words and no word is empty. *)
Fixpoint split_from (cur : string) (s : string) : list string :=
  match s with
  | EmptyString => flush cur []
  | String c s' =>
      if is_space c then flush cur (split_from EmptyString s')
      else split_from (snoc cur c) s'
  end.

Definition split (s : string) : list string := split_from EmptyString s.

(** The character before a position, after reading [m] from a position
    whose previous character was [prev]. *)
Fixpoint last_char (prev : option ascii) (m : string) : option ascii :=
  match m with
  | EmptyString => prev
  | String c m' => last_char (Some c) m'
  end.

Definition first_char (s : string) : option ascii :=
  match s with
  | EmptyString => None
  | String c _ => Some c
  end.

Fixpoint all_chars (p : ascii -> bool) (s : string) : bool :=
  match s with
  | EmptyString => true
  | String c s' => p c && all_chars p s'
  end.

Fixpoint any_char (p : ascii -> bool) (s : string) : bool :=
  match s with
  | EmptyString => false
  | String c s' => p c || any_char p s'
  end.

(** A text without white space: one word for [split]. *)
Definition no_space (s : string) : bool := all_chars (fun c => negb (is_space c)) s.

End PyStr.

(* ===================================================================== *)
(** ** Regular expressions *)
(* ===================================================================== *)

Module Re.
Import PyStr.

(** The patterns of the hooks use literals, character classes, [\s],
    [.], concatenation, alternation, [\b], and [*] and [+] applied to a
    single character class only. *)
Inductive regex : Type :=
| Eps
| Chr (p : ascii -> bool)
| Seq (r1 r2 : regex)
| Alt (r1 r2 : regex)
| Star (p : ascii -> bool)
| Bound.

Definition lit (c : ascii) : ascii -> bool := Ascii.eqb c.
Definition one_of (s : string) : ascii -> bool := fun c => any_char (Ascii.eqb c) s.
(** [[a-zA-Z]] *)
Definition alpha : ascii -> bool := fun c => in_range 97 122 c || in_range 65 90 c.
(** [.] without DOTALL: anything but a newline. *)
Definition dot : ascii -> bool := fun c => negb (is_code 10 c).

Definition Plus (p : ascii -> bool) : regex := Seq (Chr p) (Star p).

Fixpoint Str (s : string) : regex :=
  match s with
  | EmptyString => Eps
  | String c s' => Seq (Chr (lit c)) (Str s')
  end.

Definition Cat (rs : list regex) : regex := fold_right Seq Eps rs.

Definition word_at (c : option ascii) : bool :=
  match c with
  | Some c => is_word c
  | None => false
  end.

(** [\b] holds between a word character and a non-word character, the
    two ends of the text counting as non-word. *)
Definition at_boundary (prev : option ascii) (s : string) : bool :=
  xorb (word_at prev) (word_at (first_char s)).

Section Matcher.
Variable k : option ascii -> string -> bool.

Fixpoint star_k (p : ascii -> bool) (prev : option ascii) (s : string) : bool :=
  k prev s
  || match s with
     | String c s' => p c && star_k p (Some c) s'
     | EmptyString => false
     end.
End Matcher.

(** Backtracking matcher: [match_k r k prev s] holds when [r] matches a
    prefix of [s] (the character before [s] being [prev]) such that the
    continuation [k] accepts what is left. *)
Fixpoint match_k (r : regex) (k : option ascii -> string -> bool)
         (prev : option ascii) (s : string) : bool :=
  match r with
  | Eps => k prev s
  | Chr p =>
      match s with
      | String c s' => p c && k (Some c) s'
      | EmptyString => false
      end
  | Seq r1 r2 => match_k r1 (match_k r2 k) prev s
  | Alt r1 r2 => match_k r1 k prev s || match_k r2 k prev s
  | Star p => star_k k p prev s
  | Bound => at_boundary prev s && k prev s
  end.

Definition match_here (r : regex) (prev : option ascii) (s : string) : bool :=
  match_k r (fun _ _ => true) prev s.

Fixpoint search_from (r : regex) (prev : option ascii) (s : string) : bool :=
  match_here r prev s
  || match s with
     | String c s' => search_from r (Some c) s'
     | EmptyString => false
     end.

(** [re.search(pattern, s)] as a truth value. *)
Definition search (r : regex) (s : string) : bool := search_from r None s.

(** What it means for [r] to match the text [m] found after [prev] and
    followed by [rest]. *)
Inductive Matches : regex -> option ascii -> string -> string -> Prop :=
| M_Eps prev rest : Matches Eps prev EmptyString rest
| M_Chr p c prev rest :
    p c = true -> Matches (Chr p) prev (String c EmptyString) rest
| M_Seq r1 r2 prev m1 m2 rest :
    Matches r1 prev m1 (m2 +:+ rest) ->
    Matches r2 (last_char prev m1) m2 rest ->
    Matches (Seq r1 r2) prev (m1 +:+ m2) rest
| M_AltL r1 r2 prev m rest :
    Matches r1 prev m rest -> Matches (Alt r1 r2) prev m rest
| M_AltR r1 r2 prev m rest :
    Matches r2 prev m rest -> Matches (Alt r1 r2) prev m rest
| M_Star p prev m rest :
    all_chars p m = true -> Matches (Star p) prev m rest
| M_Bound prev rest :
    at_boundary prev rest = true -> Matches Bound prev EmptyString rest.

End Re.

(* ===================================================================== *)
(** ** Python values, exceptions and files *)
(* ===================================================================== *)

Module Py.
Import PyStr Re.

(** What [json.load] returns. An object is the list of its items in
    insertion order; a float is kept by its [repr] (["0.5"], ["1e+22"],
    ["nan"]). *)
#[warnings="-register-all"]
Inductive json : Type :=
| JNull
| JBool (b : bool)
| JInt (n : Z)
| JFloat (repr : string)
| JStr (s : string)
| JArr (items : list json)
| JObj (fields : list (string * json)).

(** The exceptions the hooks meet. [JSONDecodeError] and
    [UnicodeDecodeError] are subclasses of [ValueError]; no handler of
    the hooks names [ValueError], so a handler catches what it lists. *)
Inductive exn : Type :=
| JSONDecodeError
| OSError        (* IOError is the same class *)
| AttributeError
| TypeError
| ValueError
| UnicodeDecodeError
| RecursionError.

Definition exn_eqb (a b : exn) : bool :=
  match a, b with
  | JSONDecodeError, JSONDecodeError | OSError, OSError
  | AttributeError, AttributeError | TypeError, TypeError
  | ValueError, ValueError | UnicodeDecodeError, UnicodeDecodeError
  | RecursionError, RecursionError => true
  | _, _ => false
  end.

(** A computation that returns or raises. *)
Inductive res (A : Type) : Type :=
| Ok (a : A)
| Raise (e : exn).
Arguments Ok {A} a.
Arguments Raise {A} e.

#[global] Instance res_ret : MRet res := @Ok.
#[global] Instance res_bind : MBind res := fun A B f m =>
  match m with
  | Ok a => f a
  | Raise e => Raise e
  end.

(** Lookup in the items of a dict (whose keys are distinct). *)
Fixpoint dict_get (key : string) (d : list (string * json)) : option json :=
  match d with
  | [] => None
  | (k, v) :: d' => if String.eqb k key then Some v else dict_get key d'
  end.

(** [data.get(key, fallback)]: only a dict has the method. *)
Definition get (data : json) (key : string) (fallback : json) : res json :=
  match data with
  | JObj d => Ok (default fallback (dict_get key d))
  | _ => Raise AttributeError
  end.

(** [bool(v)]. *)
Definition truthy (v : json) : bool :=
  match v with
  | JNull => false
  | JBool b => b
  | JInt n => negb (n =? 0)
  | JFloat r => negb (String.eqb r "0.0" || String.eqb r "-0.0")
  | JStr s => negb (String.eqb s "")
  | JArr l => match l with [] => false | _ => true end
  | JObj d => match d with [] => false | _ => true end
  end.

(** [v == s] for a string literal [s]. *)
Definition eq_str (v : json) (s : string) : bool :=
  match v with
  | JStr t => String.eqb t s
  | _ => false
  end.

(** [s in v] for a string literal [s]: substring of a string, member of
    a list, key of a dict; other values are not containers. *)
Definition str_in (s : string) (v : json) : res bool :=
  match v with
  | JStr t => Ok (contains s t)
  | JArr l => Ok (existsb (fun x => eq_str x s) l)
  | JObj d => Ok (existsb (fun kv => String.eqb (fst kv) s) d)
  | _ => Raise TypeError
  end.

(** [re.search(pattern, v)] as a truth value; [v] must be a string. *)
Definition re_search (pattern : regex) (v : json) : res bool :=
  match v with
  | JStr s => Ok (search pattern s)
  | _ => Raise TypeError
  end.

(** [v.split()]. *)
Definition str_split (v : json) : res (list string) :=
  match v with
  | JStr s => Ok (split s)
  | _ => Raise AttributeError
  end.

(** [logs.append(x)]: only a list has the method. *)
Definition append (logs x : json) : res json :=
  match logs with
  | JArr l => Ok (JArr (l ++ [x]))
  | _ => Raise AttributeError
  end.

(** *** Formatting inside an f-string *)

Definition hex_digit (n : N) : ascii :=
  ascii_of_N (if (n <? 10)%N then 48 + n else 87 + n)%N.

Definition escape_char (quote : ascii) (c : ascii) : string :=
  if Ascii.eqb c quote || is_code 92 c then String "\" (String c EmptyString)
  else if is_code 9 c then "\t"
  else if is_code 10 c then "\n"
  else if is_code 13 c then "\r"
  else if in_range 0 31 c || in_range 127 160 c || is_code 173 c
  then String "\" (String "x" (String (hex_digit (code c / 16))
                                 (String (hex_digit (code c mod 16)) EmptyString)))
  else String c EmptyString.

Fixpoint escape (quote : ascii) (s : string) : string :=
  match s with
  | EmptyString => EmptyString
  | String c s' => escape_char quote c +:+ escape quote s'
  end.

Definition apostrophe : ascii := ascii_of_N 39.
Definition double_quote : ascii := ascii_of_N 34.

(** [repr(s)] for a string. *)
Definition repr_str (s : string) : string :=
  let quote :=
    if any_char (Ascii.eqb apostrophe) s && negb (any_char (Ascii.eqb double_quote) s)
    then double_quote else apostrophe in
  String quote (escape quote s) +:+ String quote EmptyString.

Definition repr_int (n : Z) : string := DecimalString.NilZero.string_of_int (Z.to_int n).

(** [repr(v)], as [str] of a list or a dict prints its parts. *)
Fixpoint repr (v : json) : string :=
  match v with
  | JNull => "None"
  | JBool true => "True"
  | JBool false => "False"
  | JInt n => repr_int n
  | JFloat r => r
  | JStr s => repr_str s
  | JArr l => "[" +:+ join ", " (map repr l) +:+ "]"
  | JObj d =>
      "{" +:+ join ", " (map (fun kv => repr_str (fst kv) +:+ ": " +:+ repr (snd kv)) d)
          +:+ "}"
  end.

(** [f"{v}"]: a string as it is, anything else as [repr] prints it. *)
Definition format (v : json) : string :=
  match v with
  | JStr s => s
  | _ => repr v
  end.

(** *** Texts and files *)

(** A text as [json.load] sees it, on the standard input or in a file:
    - the serialisation of a value (what [json.dump] writes), which
      loads back as the value;
    - a text that [json.load] rejects with [JSONDecodeError];
    - what is left of the serialisation of a list when the write broke
      before its end: a beginning without the closing bracket, which
      [json.load] rejects with [JSONDecodeError] too;
    - bytes that are not text in the encoding of the stream: reading
      them raises [UnicodeDecodeError];
    - a text nested deeper than the interpreter recurses, well formed
      or not: [RecursionError];
    - a text with an integer of more digits than [int] converts:
      [ValueError]. *)
Inductive document : Type :=
| Text (v : json)
| Garbled (raw : string)
| CutShort (v : json)
| Undecodable
| TooDeep
| HugeNumber.

Definition json_load (d : document) : res json :=
  match d with
  | Text v => Ok v
  | Garbled _ | CutShort _ => Raise JSONDecodeError
  | Undecodable => Raise UnicodeDecodeError
  | TooDeep => Raise RecursionError
  | HugeNumber => Raise ValueError
  end.

Record file : Type := File { content : document; readable : bool; writable : bool }.

(** [.claude/logs]: missing, and then [mkdir] can make it or not, or
    there, with the files in it by name. *)
Inductive logs_dir : Type :=
| Missing (makeable : bool)
| There (entries : gmap string file).

(** What the machine does at a name where there is no file: it takes a
    new file; it refuses one ([open(name, "w")] raises [OSError]: no
    permission, no such directory in the name); or it fails even to look
    ([os.stat] raises an [OSError] that [Path.exists] passes on: the name
    is too long, the directory cannot be searched). *)
Inductive vacancy : Type :=
| Free
| Refused
| Unreachable.

(** The part of the machine the hooks touch: the logs directory, what
    happens at the names without a file, and at which names a write
    breaks after the file was opened (no room left). *)
Record world : Type := World {
  directory : logs_dir;
  vacant : string -> vacancy;
  short_write : string -> bool
}.

(** [mkdir(parents=True, exist_ok=True)] will succeed. *)
Definition logs_dir_ok (w : world) : bool :=
  match directory w with
  | Missing makeable => makeable
  | There _ => true
  end.

(** The files in the logs directory; none when it is missing. *)
Definition files (w : world) : gmap string file :=
  match directory w with
  | Missing _ => ∅
  | There entries => entries
  end.

Definition set_file (w : world) (name : string) (f : file) : world :=
  World (There (<[name := f]> (files w))) (vacant w) (short_write w).

(** A name with a NUL in it: [os.stat] and [open] raise [ValueError]
    before they ask the machine. *)
Definition has_nul (name : string) : bool := any_char (is_code 0) name.

(** Computations on the world that return or raise. *)
Definition io (A : Type) : Type := world -> res A * world.

#[global] Instance io_ret : MRet io := fun A a w => (Ok a, w).
#[global] Instance io_bind : MBind io := fun A B f m w =>
  match m w with
  | (Ok a, w') => f a w'
  | (Raise e, w') => (Raise e, w')
  end.

Definition lift {A} (r : res A) : io A := fun w => (r, w).

(** [try: body except (handled): handler]. *)
Definition try_except {A} (body : io A) (handled : list exn) (handler : io A) : io A :=
  fun w =>
    match body w with
    | (Ok a, w') => (Ok a, w')
    | (Raise e, w') =>
        if existsb (exn_eqb e) handled then handler w' else (Raise e, w')
    end.

(** [log_dir.mkdir(parents=True, exist_ok=True)]: nothing to do when the
    directory is there; otherwise it is made, empty, or [OSError]. *)
Definition mkdir_logs : io unit := fun w =>
  match directory w with
  | There _ => (Ok tt, w)
  | Missing true => (Ok tt, World (There ∅) (vacant w) (short_write w))
  | Missing false => (Raise OSError, w)
  end.

(** [log_file.exists()]: [os.stat] and whether it found something.
    [Path.exists] turns the [ValueError] of a NUL into [False], and
    passes on an [OSError] other than "no such file". *)
Definition path_exists (name : string) : io bool := fun w =>
  match files w !! name with
  | Some _ => (Ok true, w)
  | None =>
      if has_nul name then (Ok false, w)
      else match vacant w name with
           | Unreachable => (Raise OSError, w)
           | _ => (Ok false, w)
           end
  end.

(** [open(name, "r")] and reading the text. *)
Definition read_text (name : string) : io document := fun w =>
  match files w !! name with
  | Some f => if readable f then (Ok (content f), w) else (Raise OSError, w)
  | None => (Raise OSError, w)
  end.

(** [json.dump(v, f, indent=2)] into the file that [open(name, "w")]
    has emptied: the text of [v], or a beginning of it and [OSError] when
    the write breaks. *)
Definition dump_into (name : string) (v : json) (r : bool) : io unit := fun w =>
  if short_write w name
  then (Raise OSError, set_file w name (File (CutShort v) r true))
  else (Ok tt, set_file w name (File (Text v) r true)).

(** [with open(name, "w") as f: json.dump(v, f, indent=2)]. *)
Definition write_json (name : string) (v : json) : io unit := fun w =>
  match files w !! name with
  | Some f => if writable f then dump_into name v (readable f) w else (Raise OSError, w)
  | None =>
      if has_nul name then (Raise ValueError, w)
      else match vacant w name with
           | Free => dump_into name v true w
           | _ => (Raise OSError, w)
           end
  end.

(** How a process ends: [sys.exit(status)] after printing [stderr]. *)
Record exit : Type := Exit { status : Z; stderr : list string }.

(** The status the caller sees; an uncaught exception ends the
    interpreter with status 1. *)
Definition exit_status (r : res exit) : Z :=
  match r with
  | Ok e => status e
  | Raise _ => 1
  end.

End Py.

Import PyStr Re Py.

(* ===================================================================== *)
(** ** The audit recorder *)
(* ===================================================================== *)

Module AuditRecorder.

(** The log of a stage for a session. *)
Definition log_file (stage : string) (session_id : json) : string :=
  stage +:+ "_" +:+ format session_id +:+ ".json".

(** The body that [log_tool_call] of the guard and [log_tool_execution]
    of the logger share word for word; only the file name differs. *)
Definition append_to_log (stage : string) (data : json) : io unit :=
  session_id ← lift (get data "sessionId" (JStr "unknown"));
  mkdir_logs;;
  let name := log_file stage session_id in
  present ← path_exists name;
  logs ← (if (present : bool)
          then try_except (text ← read_text name; lift (json_load text))
                          [JSONDecodeError; OSError]
                          (mret (JArr []))
          else mret (JArr []));
  logs ← lift (append logs data);
  try_except (write_json name logs) [OSError] (mret tt).

End AuditRecorder.

(* ===================================================================== *)
(** ** pre_tool_use.py *)
(* ===================================================================== *)

Module PreToolUse.

(** The four [rm_patterns], in the order of the source. *)
Definition rm_patterns : list regex :=
  [ (* \brm\s+(-[a-zA-Z]*r[a-zA-Z]*f[a-zA-Z]*|--recursive\s+--force) *)
    Cat [Bound; Str "rm"; Plus is_space;
         Alt (Cat [Str "-"; Star alpha; Str "r"; Star alpha; Str "f"; Star alpha])
             (Cat [Str "--recursive"; Plus is_space; Str "--force"])];
    (* \brm\s+(-[a-zA-Z]*f[a-zA-Z]*r[a-zA-Z]*|--force\s+--recursive) *)
    Cat [Bound; Str "rm"; Plus is_space;
         Alt (Cat [Str "-"; Star alpha; Str "f"; Star alpha; Str "r"; Star alpha])
             (Cat [Str "--force"; Plus is_space; Str "--recursive"])];
    (* \brm\s+-[rR]f *)
    Cat [Bound; Str "rm"; Plus is_space; Str "-"; Chr (one_of "rR"); Str "f"];
    (* \brm\s+-f[rR] *)
    Cat [Bound; Str "rm"; Plus is_space; Str "-f"; Chr (one_of "rR")] ].

Definition dangerous_paths : list string :=
  ["/"; "/*"; "~"; "$HOME"; ".."; "*"; "."]%string.

(** \brm\s+-[rR]f\s+[~/.] *)
Definition rm_rf_target : regex :=
  Cat [Bound; Str "rm"; Plus is_space; Str "-"; Chr (one_of "rR"); Str "f";
       Plus is_space; Chr (one_of "~/.")].

(** The body of [is_dangerous_rm_command] once [cmd] is normalised. *)
Definition dangerous_rm_text (cmd : string) : bool :=
  existsb (fun pattern =>
             search pattern cmd
             && existsb (fun path => contains path cmd) dangerous_paths)
          rm_patterns
  || search rm_rf_target cmd.

Definition is_dangerous_rm_command (command : json) : res bool :=
  words ← str_split command;
  let cmd := join " " words in
  mret (dangerous_rm_text cmd).

Definition env_tools : list string :=
  ["Read"; "Edit"; "MultiEdit"; "Write"; "Bash"]%string.

Definition env_patterns : list regex :=
  [ (* cat\s+\.env *)
    Cat [Str "cat"; Plus is_space; Str ".env"];
    (* echo\s+.*>\s*\.env *)
    Cat [Str "echo"; Plus is_space; Star dot; Str ">"; Star is_space; Str ".env"];
    (* touch\s+\.env *)
    Cat [Str "touch"; Plus is_space; Str ".env"];
    (* cp\s+.*\.env *)
    Cat [Str "cp"; Plus is_space; Star dot; Str ".env"];
    (* mv\s+.*\.env *)
    Cat [Str "mv"; Plus is_space; Star dot; Str ".env"] ].

(** [".env.sample" in v or ".env.example" in v]. *)
Definition names_template (v : json) : res bool :=
  sample ← str_in ".env.sample" v;
  if (sample : bool) then mret true else str_in ".env.example" v.

(** [for pattern in patterns: if re.search(pattern, v): return True],
    giving [false] when the loop runs out. *)
Fixpoint any_search (patterns : list regex) (v : json) : res bool :=
  match patterns with
  | [] => mret false
  | pattern :: rest =>
      hit ← re_search pattern v;
      if (hit : bool) then mret true else any_search rest v
  end.

Definition is_env_file_access (tool_name : json) (data : json) : res bool :=
  if negb (existsb (eq_str tool_name) env_tools) then mret false
  else
    file_path ← get data "file_path" (JStr "");
    named ← (if truthy file_path then str_in ".env" file_path else mret false);
    if (named : bool) then
      template ← names_template file_path;
      mret (negb template)
    else if eq_str tool_name "Bash" then
      command ← get data "command" (JStr "");
      mentioned ← str_in ".env" command;
      if (mentioned : bool) then
        template ← names_template command;
        if (template : bool) then mret false else any_search env_patterns command
      else mret false
    else mret false.

Definition log_tool_call (data : json) : io unit :=
  AuditRecorder.append_to_log "pre_tool_use" data.

Inductive Decision : Type :=
| ALLOW
| BLOCK (reason : list string).

(** The lines [main] prints on the error channel when it blocks (the
    cross mark at their head, a code point above 255, by its UTF-8
    bytes). *)
Definition env_reason : list string :=
  ["❌ Error: Access to .env files is blocked for security.";
   "Use .env.sample for templates."]%string.

Definition rm_reason (command : string) : list string :=
  ["❌ Error: Dangerous rm command blocked.";
   "Command: " +:+ command;
   "This could delete important system files."]%string.

(** The rule checks of [main], lines 139 to 155. *)
Definition check_rules (tool_name : json) (data : json) : res Decision :=
  env ← is_env_file_access tool_name data;
  if (env : bool) then mret (BLOCK env_reason)
  else if eq_str tool_name "Bash" then
    command ← get data "command" (JStr "");
    dangerous ← is_dangerous_rm_command command;
    if (dangerous : bool) then mret (BLOCK (rm_reason (format command)))
    else mret ALLOW
  else mret ALLOW.

(** The decision on a parsed record: [main] without the log. *)
Definition evaluate (data : json) : res Decision :=
  tool_name ← get data "tool" (JStr "");
  check_rules tool_name data.

Definition exit_of (d : Decision) : exit :=
  match d with
  | ALLOW => Exit 0 []
  | BLOCK reason => Exit 2 reason
  end.

Definition main (stdin : document) : io exit :=
  match json_load stdin with
  | Raise JSONDecodeError => mret (Exit 0 [])
  | Raise e => lift (Raise e)
  | Ok data =>
      tool_name ← lift (get data "tool" (JStr ""));
      log_tool_call data;;
      decision ← lift (check_rules tool_name data);
      mret (exit_of decision)
  end.

End PreToolUse.

(* ===================================================================== *)
(** ** post_tool_use.py *)
(* ===================================================================== *)

Module PostToolUse.

Definition log_tool_execution (data : json) : io unit :=
  AuditRecorder.append_to_log "post_tool_use" data.

Definition main (stdin : document) : io exit :=
  match json_load stdin with
  | Raise JSONDecodeError => mret (Exit 0 [])
  | Raise e => lift (Raise e)
  | Ok data =>
      log_tool_execution data;;
      mret (Exit 0 [])
  end.

End PostToolUse.

Import AuditRecorder PreToolUse.

(* ===================================================================== *)
(** ** Vocabulary of the statements *)
(* ===================================================================== *)

Definition record (sid tool : string) (params : list (string * json)) : json :=
  JObj (("sessionId"%string, JStr sid) :: ("tool"%string, JStr tool) :: params).

Definition bash (sid command : string) : json :=
  record sid "Bash" [("command"%string, JStr command)].

(** The bytes of a name in UTF-8: two for a code point above 127. *)
Fixpoint utf8_length (s : string) : N :=
  match s with
  | EmptyString => 0%N
  | String c s' => ((if (code c <? 128)%N then 1 else 2) + utf8_length s')%N
  end.

(** The part of a name before its first [/]. *)
Fixpoint first_component (s : string) : string :=
  match s with
  | EmptyString => EmptyString
  | String c s' => if is_code 47 c then EmptyString else String c (first_component s')
  end.

(** The names of a directory without subdirectories, on a file system
    that takes names of 255 bytes: a longer name cannot even be looked
    up, and a name with a [/] points into a directory that is not there. *)
Definition plain_names (name : string) : vacancy :=
  if (255 <? utf8_length (first_component name))%N then Unreachable
  else if contains "/" name then Refused
  else Free.

(** A session identifier with a NUL in it, ["a\u0000"] in JSON, and one
    of 300 characters. *)
Definition nul_session : string := String "a" (String (ascii_of_N 0) EmptyString).
Definition long_session : string := String.concat "" (repeat "x"%string 300).

(** The logs directory, there and empty, with room to write. *)
Definition empty_world : world := World (There ∅) plain_names (fun _ => false).

(** A project where the hooks never ran: no logs directory yet. *)
Definition new_project : world := World (Missing true) plain_names (fun _ => false).

(** No logs directory, and none can be made. *)
Definition no_logs_dir : world := World (Missing false) plain_names (fun _ => false).

(** A directory where nothing can be written or made, with one log. *)
Definition read_only_logs : world :=
  World (There {[ "pre_tool_use_s1.json"%string := File (Text (JArr [JNull])) true false ]})
        (fun _ => Refused) (fun _ => false).

(** An empty logs directory on a disk without room: files can be made,
    and every write breaks. *)
Definition full_disk : world := World (There ∅) plain_names (fun _ => true).

(** The logs directory is there. *)
Definition there (w : world) : bool :=
  match directory w with
  | There _ => true
  | Missing _ => false
  end.

(** The world once [mkdir] has returned: as it was, with the directory
    there (and empty, if it had to be made). *)
Definition made (w : world) : world :=
  match directory w with
  | There _ => w
  | Missing _ => World (There ∅) (vacant w) (short_write w)
  end.

(** A new log can be made at the name: the name has no NUL, the machine
    takes a new file there, and the write does not break. *)
Definition creatable (w : world) (name : string) : bool :=
  negb (has_nul name)
  && match vacant w name with Free => true | _ => false end
  && negb (short_write w name).


(** A non-empty run of white space. *)
Definition gap (ws : string) : bool :=
  negb (String.eqb ws "") && all_chars is_space ws.

(** What [main] of the guard returns for what the rule checks return. *)
Definition outcome_of (r : res Decision) : res exit :=
  match r with
  | Ok decision => Ok (exit_of decision)
  | Raise e => Raise e
  end.

(** The session a record belongs to. *)
Definition session_of (d : list (string * json)) : json :=
  default (JStr "unknown") (dict_get "sessionId" d).

(** The records the recorder finds in a log: the list in the file, and
    nothing when there is no file, or one it cannot read or parse. *)
Definition previous (w : world) (name : string) : list json :=
  match files w !! name with
  | Some (File (Text (JArr records)) true _) => records
  | _ => []
  end.

(** What the recorder holds in [logs] when it comes to [logs.append]:
    the empty list when there is no log, when the log cannot be read and
    when it raises [JSONDecodeError]; the value in the log otherwise; and
    the exception that escapes when the look for the log or [json.load]
    raises another one. *)
Definition loaded (w : world) (name : string) : res json :=
  match files w !! name with
  | Some (File body true _) =>
      match json_load body with
      | Raise JSONDecodeError => Ok (JArr [])
      | other => other
      end
  | Some (File _ false _) => Ok (JArr [])
  | None =>
      if has_nul name then Ok (JArr [])
      else match vacant w name with
           | Unreachable => Raise OSError
           | _ => Ok (JArr [])
           end
  end.

(** What [json.load] made of a log is kept or caught: the log holds a
    list, or a text that raises [JSONDecodeError]. *)
Definition list_or_caught (body : document) : bool :=
  match body with
  | Text (JArr _) | Garbled _ | CutShort _ => true
  | _ => false
  end.

(** The recorder can append to the log: the directory is there or can be
    made; the file can be written, the write does not break, and what the
    recorder reads from the file, if it can read it, is a list or does not
    parse; or there is no file and one can be made. *)
Definition appendable (w : world) (name : string) : bool :=
  logs_dir_ok w
  && match files w !! name with
     | None => creatable w name
     | Some (File body r wr) =>
         wr && negb (short_write w name) && (negb r || list_or_caught body)
     end.

(** The recorder returns, with the log written or not: the directory is
    there or can be made; the log, if it is there and can be read, holds a
    list or a text that raises [JSONDecodeError]; if it is not there, its
    name has no NUL and the machine can look the name up. *)
Definition recorder_returns (w : world) (name : string) : bool :=
  logs_dir_ok w
  && match files w !! name with
     | Some (File body r _) => negb r || list_or_caught body
     | None =>
         negb (has_nul name)
         && match vacant w name with Unreachable => false | _ => true end
     end.

(** The log cannot be opened for writing: the file refuses, or there is
    none and the machine refuses a new one. *)
Definition unwritable (w : world) (name : string) : bool :=
  match files w !! name with
  | Some f => negb (writable f)
  | None => match vacant w name with Refused => true | _ => false end
  end.

(** The log can be opened for writing, and the write breaks. *)
Definition breaks_off (w : world) (name : string) : bool :=
  short_write w name
  && match files w !! name with
     | Some f => writable f
     | None => match vacant w name with Free => true | _ => false end
     end.

(** A logs directory in order: it is there or can be made, every file in
    it is a log that can be read and written and holds a list, and no
    write breaks. *)
Definition tidy (w : world) : Prop :=
  logs_dir_ok w = true
  /\ (forall name, short_write w name = false)
  /\ (forall name f, files w !! name = Some f ->
                     exists records, f = File (Text (JArr records)) true true).

(** The record goes to the log of this name at this stage. *)
Definition logged_in (stage name : string) (d : list (string * json)) : bool :=
  String.eqb (log_file stage (session_of d)) name.

(** The file after an append. *)
Definition appended (w : world) (name : string) (data : json) : file :=
  File (Text (JArr (previous w name ++ [data])))
       (match files w !! name with Some f => readable f | None => true end)
       true.

(** The file after an append whose write broke. *)
Definition cut_off (w : world) (name : string) (data : json) : file :=
  File (CutShort (JArr (previous w name ++ [data])))
       (match files w !! name with Some f => readable f | None => true end)
       true.


(** One call of the recorder per record, in the order of the list. *)
Fixpoint append_all (log : json -> io unit) (records : list json) : io unit :=
  match records with
  | [] => mret tt
  | r :: rest => log r;; append_all log rest
  end.

(** The check of [is_env_file_access] on the text of a command. *)
Definition env_command_fires (c : string) : bool :=
  contains ".env" c
  && negb (contains ".env.sample" c || contains ".env.example" c)
  && existsb (fun r => search r c) env_patterns.

(** The direct-access idioms, in words: [cat] then white space then
    [.env]; [echo], white space, the rest of a line up to a [>], possibly
    white space, [.env]; [touch] like [cat]; [cp] or [mv], white space, and
    [.env] further on the same line. *)
Inductive direct_access : string -> Prop :=
| access_cat pre ws post :
    gap ws = true ->
    direct_access (pre +:+ "cat" +:+ ws +:+ ".env" +:+ post)
| access_echo pre ws line ws' post :
    gap ws = true -> all_chars dot line = true -> all_chars is_space ws' = true ->
    direct_access (pre +:+ "echo" +:+ ws +:+ line +:+ ">" +:+ ws' +:+ ".env" +:+ post)
| access_touch pre ws post :
    gap ws = true ->
    direct_access (pre +:+ "touch" +:+ ws +:+ ".env" +:+ post)
| access_cp pre ws line post :
    gap ws = true -> all_chars dot line = true ->
    direct_access (pre +:+ "cp" +:+ ws +:+ line +:+ ".env" +:+ post)
| access_mv pre ws line post :
    gap ws = true -> all_chars dot line = true ->
    direct_access (pre +:+ "mv" +:+ ws +:+ line +:+ ".env" +:+ post).

(** The flags the [rm_patterns] look for, in words: one word of letters
    after a dash with an [r] before an [f], or an [f] before an [r]; the
    two long options in either order; [-Rf]; [-fR]. *)
Inductive rm_flags : string -> Prop :=
| flags_r_f x y :
    all_chars alpha x = true -> all_chars alpha y = true ->
    rm_flags ("-" +:+ x +:+ "r" +:+ y +:+ "f")
| flags_f_r x y :
    all_chars alpha x = true -> all_chars alpha y = true ->
    rm_flags ("-" +:+ x +:+ "f" +:+ y +:+ "r")
| flags_long_r_f ws :
    gap ws = true -> rm_flags ("--recursive" +:+ ws +:+ "--force")
| flags_long_f_r ws :
    gap ws = true -> rm_flags ("--force" +:+ ws +:+ "--recursive")
| flags_R_f : rm_flags "-Rf"
| flags_f_R : rm_flags "-fR".

(** A text that runs [rm] with such flags: [rm] at the start of a word,
    white space, the flags, anything. *)
Definition rm_invoked (cmd : string) : Prop :=
  exists pre ws flags post,
    cmd = pre +:+ "rm" +:+ ws +:+ flags +:+ post
    /\ word_at (last_char None pre) = false
    /\ gap ws = true
    /\ rm_flags flags.


(* ===================================================================== *)
(** ** The model on small inputs *)
(* ===================================================================== *)

Example normalise_ex :
  join " " (split "  rm   -rf /  ") = "rm -rf /"%string.
Proof. reflexivity. Qed.

Example format_ex :
  format (JArr [JInt 1; JStr "a"; JNull; JBool true; JFloat "1.5"; JObj [("k"%string, JArr [])]])
  = "[1, 'a', None, True, 1.5, {'k': []}]"%string.
Proof. vm_compute. reflexivity. Qed.

Example log_file_ex : log_file "pre_tool_use" (JStr "abc") = "pre_tool_use_abc.json"%string.
Proof. reflexivity. Qed.

Example boundary_ex :
  search (Cat [Bound; Str "rm"]) "xrm" = false /\ search (Cat [Bound; Str "rm"]) "-rm" = true.
Proof. split; reflexivity. Qed.

(** The destructive-delete rule is a heuristic: it misses separate flags
    and paths without a token, and fires on a token anywhere. *)
Example rm_heuristic_ex :
  map (fun c => evaluate (bash "s1" c))
      ["rm -r -f /"; "rm -rf important_data"; "rm -fr *"; "rm -rf build && echo a.b"]%string
  = [Ok ALLOW; Ok ALLOW; Ok (BLOCK (rm_reason "rm -fr *"));
     Ok (BLOCK (rm_reason "rm -rf build && echo a.b"))].
Proof. vm_compute. reflexivity. Qed.

(** A record whose [file_path] is a number makes the check on [.env]
    raise. *)
Example ill_typed_ex :
  evaluate (record "s1" "Bash" [("command"%string, JStr "rm -rf /");
                                 ("file_path"%string, JInt 5)])
  = Raise TypeError.
Proof. reflexivity. Qed.

(* ===================================================================== *)
(** ** Facts about strings *)
(* ===================================================================== *)

Section StringFacts.

Lemma append_nil_r (s : string) : s +:+ EmptyString = s.
Proof. induction s as [|c s IH]; simpl; [reflexivity | now rewrite IH]. Qed.

Lemma append_assoc (a b c : string) : (a +:+ b) +:+ c = a +:+ (b +:+ c).
Proof. induction a as [|x a IH]; simpl; [reflexivity | now rewrite IH]. Qed.

Lemma prefix_nil (s : string) : String.prefix EmptyString s = true.
Proof. now destruct s. Qed.

Lemma prefix_one (c : ascii) (s : string) :
  String.prefix (String c EmptyString) (String c s) = true.
Proof.
  simpl. destruct (ascii_dec c c) as [_|ne]; [apply prefix_nil | now elim ne].
Qed.

Lemma prefix_app (a b : string) : String.prefix a (a +:+ b) = true.
Proof.
  induction a as [|x a IH]; simpl.
  - now destruct b.
  - destruct (ascii_dec x x) as [_|ne]; [exact IH | now elim ne].
Qed.

Lemma prefix_inv (a s : string) :
  String.prefix a s = true -> exists b, s = a +:+ b.
Proof.
  revert s; induction a as [|x a IH]; intros s H.
  - now exists s.
  - destruct s as [|y s]; simpl in H; [discriminate|].
    destruct (ascii_dec x y) as [->|_]; [|discriminate].
    destruct (IH _ H) as [b ->]. now exists b.
Qed.

Lemma contains_nil (needle : string) :
  contains needle EmptyString = String.prefix needle EmptyString.
Proof. unfold contains. apply orb_false_r. Qed.

Lemma contains_cons (needle : string) (c : ascii) (hay : string) :
  contains needle (String c hay)
  = String.prefix needle (String c hay) || contains needle hay.
Proof. reflexivity. Qed.

(** [needle in hay] holds exactly when [hay] splits around [needle]. *)
Lemma contains_iff (needle hay : string) :
  contains needle hay = true <-> exists a b, hay = a +:+ needle +:+ b.
Proof.
  split.
  - induction hay as [|c hay IH]; intros H.
    + rewrite contains_nil in H. apply prefix_inv in H as [b Hb].
      now exists EmptyString, b.
    + rewrite contains_cons in H. apply orb_true_iff in H as [H|H].
      * apply prefix_inv in H as [b Hb]. now exists EmptyString, b.
      * destruct (IH H) as (a & b & ->). now exists (String c a), b.
  - intros (a & b & ->). induction a as [|c a IH].
    + assert (P : String.prefix needle (needle +:+ b) = true) by apply prefix_app.
      change (EmptyString +:+ needle +:+ b) with (needle +:+ b).
      destruct (needle +:+ b); [now rewrite contains_nil|].
      rewrite contains_cons, P. reflexivity.
    + change (String c a +:+ needle +:+ b) with (String c (a +:+ needle +:+ b)).
      rewrite contains_cons, IH. apply orb_true_r.
Qed.

Lemma contains_app_r (needle a hay : string) :
  contains needle hay = true -> contains needle (a +:+ hay) = true.
Proof.
  rewrite !contains_iff. intros (x & y & ->).
  exists (a +:+ x), y. now rewrite append_assoc.
Qed.

Lemma contains_app_l (needle hay b : string) :
  contains needle hay = true -> contains needle (hay +:+ b) = true.
Proof.
  rewrite !contains_iff. intros (x & y & ->).
  exists x, (y +:+ b). now rewrite !append_assoc.
Qed.

(** A text that holds [a +:+ b] holds [a]. *)
Lemma contains_shorter (a b hay : string) :
  contains (a +:+ b) hay = true -> contains a hay = true.
Proof.
  rewrite !contains_iff. intros (x & y & ->).
  exists x, (b +:+ y). now rewrite !append_assoc.
Qed.

Lemma any_char_app (p : ascii -> bool) (a b : string) :
  any_char p (a +:+ b) = any_char p a || any_char p b.
Proof. induction a as [|c a IH]; simpl; [reflexivity | now rewrite IH, orb_assoc]. Qed.

(** A character of a class in the text, seen as a one-character needle. *)
Lemma any_char_one_of (cs s : string) :
  any_char (one_of cs) s = true ->
  exists c, any_char (Ascii.eqb c) cs = true /\ contains (String c EmptyString) s = true.
Proof.
  induction s as [|x s IH]; [discriminate|].
  intros H. apply orb_true_iff in H as [H|H].
  - exists x. split; [exact H|]. now rewrite contains_cons, prefix_one.
  - destruct (IH H) as (c & Hc & Hs). exists c. split; [exact Hc|].
    rewrite contains_cons, Hs. apply orb_true_r.
Qed.

End StringFacts.

(* ===================================================================== *)
(** ** The matcher against the meaning of the patterns *)
(* ===================================================================== *)

Section MatcherFacts.

Lemma last_char_app (prev : option ascii) (a b : string) :
  last_char prev (a +:+ b) = last_char (last_char prev a) b.
Proof. revert prev; induction a as [|c a IH]; intros prev; simpl; [reflexivity | apply IH]. Qed.

Lemma star_k_iff k p prev s :
  star_k k p prev s = true <->
  exists m rest, s = m +:+ rest /\ all_chars p m = true /\ k (last_char prev m) rest = true.
Proof.
  split.
  - revert prev; induction s as [|c s IH]; intros prev H; simpl in H.
    + rewrite orb_false_r in H. now exists EmptyString, EmptyString.
    + apply orb_true_iff in H as [H|H].
      * now exists EmptyString, (String c s).
      * apply andb_true_iff in H as [Hc H].
        destruct (IH _ H) as (m & rest & -> & Hm & Hk).
        exists (String c m), rest. simpl. now rewrite Hc, Hm.
  - intros (m & rest & -> & Hm & Hk).
    revert prev Hk; induction m as [|c m IH]; intros prev Hk; simpl in *.
    + destruct rest; simpl; now rewrite Hk.
    + apply andb_true_iff in Hm as [Hc Hm].
      rewrite Hc, (IH Hm _ Hk). apply orb_true_r.
Qed.

(** The matcher finds exactly the matches of the pattern: it accepts
    when some match of [r] at the front of [s] leaves a rest that the
    continuation accepts. *)
Lemma match_k_iff r : forall k prev s,
  match_k r k prev s = true <->
  exists m rest, s = m +:+ rest /\ Matches r prev m rest /\ k (last_char prev m) rest = true.
Proof.
  induction r as [|p|r1 IH1 r2 IH2|r1 IH1 r2 IH2|p|]; intros k prev s; simpl.
  - split.
    + intros H. exists EmptyString, s. repeat split; [constructor | exact H].
    + intros (m & rest & -> & HM & Hk). inversion HM; subst. exact Hk.
  - split.
    + destruct s as [|c s]; [discriminate|]. intros H.
      apply andb_true_iff in H as [Hc Hk].
      exists (String c EmptyString), s. repeat split; [now constructor | exact Hk].
    + intros (m & rest & -> & HM & Hk). inversion HM; subst. simpl in *.
      now rewrite H0, Hk.
  - rewrite IH1. split.
    + intros (m1 & rest1 & -> & HM1 & H).
      apply IH2 in H as (m2 & rest & -> & HM2 & Hk).
      exists (m1 +:+ m2), rest. rewrite append_assoc, last_char_app.
      repeat split; [now constructor | exact Hk].
    + intros (m & rest & -> & HM & Hk). inversion HM; subst.
      exists m1, (m2 +:+ rest). rewrite append_assoc. repeat split; [assumption|].
      apply IH2. exists m2, rest. rewrite last_char_app in Hk. now repeat split.
  - rewrite orb_true_iff, IH1, IH2. split.
    + intros [(m & rest & -> & HM & Hk)|(m & rest & -> & HM & Hk)];
        exists m, rest; repeat split; try assumption;
        [now apply M_AltL | now apply M_AltR].
    + intros (m & rest & -> & HM & Hk). inversion HM; subst;
        [left | right]; exists m, rest; now repeat split.
  - rewrite star_k_iff. split.
    + intros (m & rest & -> & Hm & Hk). exists m, rest.
      repeat split; [now constructor | exact Hk].
    + intros (m & rest & -> & HM & Hk). inversion HM; subst.
      exists m, rest. now repeat split.
  - split.
    + intros H. apply andb_true_iff in H as [Hb Hk].
      exists EmptyString, s. repeat split; [now constructor | exact Hk].
    + intros (m & rest & -> & HM & Hk). inversion HM; subst. simpl in *.
      now rewrite H, Hk.
Qed.

Lemma match_here_iff r prev s :
  match_here r prev s = true <-> exists m rest, s = m +:+ rest /\ Matches r prev m rest.
Proof.
  unfold match_here. rewrite match_k_iff. split.
  - intros (m & rest & ? & ? & _). now exists m, rest.
  - intros (m & rest & ? & ?). now exists m, rest.
Qed.

Lemma search_from_iff r : forall s prev,
  search_from r prev s = true <->
  exists pre m post, s = pre +:+ m +:+ post /\ Matches r (last_char prev pre) m post.
Proof.
  induction s as [|c s IH]; intros prev; simpl.
  - rewrite orb_false_r, match_here_iff. split.
    + intros (m & rest & ? & ?). now exists EmptyString, m, rest.
    + intros (pre & m & post & E & HM). destruct pre; [|discriminate].
      now exists m, post.
  - rewrite orb_true_iff, match_here_iff, IH. split.
    + intros [(m & rest & ? & ?)|(pre & m & post & -> & HM)].
      * now exists EmptyString, m, rest.
      * now exists (String c pre), m, post.
    + intros (pre & m & post & E & HM). destruct pre as [|x pre].
      * left. now exists m, post.
      * right. simpl in E. injection E as <- ->. now exists pre, m, post.
Qed.

(** [re.search] succeeds exactly when the pattern matches somewhere. *)
Lemma search_iff r s :
  search r s = true <->
  exists pre m post, s = pre +:+ m +:+ post /\ Matches r (last_char None pre) m post.
Proof. apply search_from_iff. Qed.

End MatcherFacts.

(* ===================================================================== *)
(** ** Facts about [" ".join(command.split())] *)
(* ===================================================================== *)

Section Normalisation.

Lemma flush_nonempty cur rest : cur <> EmptyString -> flush cur rest = cur :: rest.
Proof. destruct cur; [intros H; now elim H | reflexivity]. Qed.

Lemma snoc_app cur c w : snoc cur c +:+ w = cur +:+ String c w.
Proof. unfold snoc. now rewrite append_assoc. Qed.

(** Reading a run of non-space characters extends the current word. *)
Lemma split_from_word w : forall cur s,
  no_space w = true -> split_from cur (w +:+ s) = split_from (cur +:+ w) s.
Proof.
  induction w as [|c w IH]; intros cur s H; simpl in *.
  - now rewrite append_nil_r.
  - apply andb_true_iff in H as [Hc Hw]. apply negb_true_iff in Hc.
    rewrite Hc, (IH _ _ Hw), snoc_app. reflexivity.
Qed.





Lemma join_cons2 sep w w' words :
  join sep (w :: w' :: words) = w +:+ sep +:+ join sep (w' :: words).
Proof. reflexivity. Qed.







Lemma prefix_before_space t : forall a sp b,
  is_space sp = true -> no_space t = true ->
  String.prefix t (a +:+ String sp b) = true -> String.prefix t a = true.
Proof.
  induction t as [|x t IH]; intros a sp b Hsp Ht H; [apply prefix_nil|].
  simpl in Ht. apply andb_true_iff in Ht as [Hx Ht]. apply negb_true_iff in Hx.
  destruct a as [|c a]; simpl in *.
  - destruct (ascii_dec x sp) as [->|_]; [congruence | discriminate].
  - destruct (ascii_dec x c) as [_|_]; [now apply (IH a sp b) | discriminate].
Qed.

(** A needle without white space lies on one side of a white space. *)
Lemma contains_around_space t a sp b :
  is_space sp = true -> no_space t = true ->
  contains t (a +:+ String sp b) = true ->
  contains t a = true \/ contains t b = true.
Proof.
  intros Hsp Ht. induction a as [|c a IH]; intros H.
  - change (EmptyString +:+ String sp b) with (String sp b) in H.
    rewrite contains_cons in H. apply orb_true_iff in H as [H|H]; [left | now right].
    rewrite contains_nil. now apply (prefix_before_space t EmptyString sp b).
  - change (String c a +:+ String sp b) with (String c (a +:+ String sp b)) in H.
    rewrite contains_cons in H. apply orb_true_iff in H as [H|H].
    + left. rewrite contains_cons.
      now rewrite (prefix_before_space t (String c a) sp b Hsp Ht H).
    + destruct (IH H) as [Ha|Hb]; [left | now right].
      rewrite contains_cons, Ha. apply orb_true_r.
Qed.

(** Normalising brings in no needle without white space that the
    command did not hold. *)
Lemma contains_split_from t s : forall cur,
  no_space t = true ->
  contains t (join " " (split_from cur s)) = true ->
  contains t (cur +:+ s) = true.
Proof.
  induction s as [|c s IH]; intros cur Ht H; simpl in H.
  - rewrite append_nil_r. destruct cur; simpl in H; exact H.
  - destruct (is_space c) eqn:Hc.
    + destruct cur as [|x cur].
      * simpl in H. apply IH in H; [|exact Ht].
        change (contains t (String c s) = true).
        rewrite contains_cons. change (EmptyString +:+ s) with s in H.
        rewrite H. apply orb_true_r.
      * rewrite flush_nonempty in H by discriminate.
        destruct (split_from EmptyString s) as [|w words] eqn:E.
        -- simpl in H. now apply contains_app_l.
        -- rewrite join_cons2 in H.
           apply (contains_around_space t _ " " _ eq_refl Ht) in H as [H|H].
           ++ now apply contains_app_l.
           ++ rewrite <- E in H. apply IH in H; [|exact Ht].
              change (EmptyString +:+ s) with s in H.
              apply contains_app_r. rewrite contains_cons, H. apply orb_true_r.
    + apply IH in H; [|exact Ht]. now rewrite snoc_app in H.
Qed.

Lemma contains_normalised t s :
  no_space t = true ->
  contains t (join " " (split s)) = true -> contains t s = true.
Proof. intros Ht H. now apply (contains_split_from t s EmptyString). Qed.

End Normalisation.

(* ===================================================================== *)
(** ** The guard's two rules *)
(* ===================================================================== *)

Section GuardFacts.

Lemma gap_inv ws : gap ws = true -> ws <> EmptyString /\ all_chars is_space ws = true.
Proof.
  unfold gap. intros H. apply andb_true_iff in H as [N A]. split; [|exact A].
  intros ->. discriminate.
Qed.

Lemma dangerous_path_word token :
  In token dangerous_paths -> token <> EmptyString /\ no_space token = true.
Proof.
  intros H. repeat (destruct H as [<-|H]; [split; [discriminate | reflexivity]|]).
  destruct H.
Qed.




Lemma any_search_str patterns c :
  any_search patterns (JStr c) = Ok (existsb (fun r => search r c) patterns).
Proof.
  induction patterns as [|r rs IH]; [reflexivity|].
  cbn [any_search existsb re_search]. unfold mbind, res_bind.
  destruct (search r c); [reflexivity | exact IH].
Qed.

Lemma names_template_str p :
  names_template (JStr p)
  = Ok (contains ".env.sample" p || contains ".env.example" p).
Proof.
  unfold names_template. cbn [str_in]. unfold mbind, res_bind.
  destruct (contains ".env.sample" p); reflexivity.
Qed.

Lemma named_in_path p :
  (if truthy (JStr p) then str_in ".env" (JStr p) else mret false)
  = Ok (contains ".env" p).
Proof. destruct p; reflexivity. Qed.

(** [is_env_file_access] on a record whose [file_path] (by default the
    empty string) and [command] are strings. *)
Lemma env_access_strings tool d c p :
  In tool env_tools ->
  default (JStr "") (dict_get "file_path" d) = JStr p ->
  default (JStr "") (dict_get "command" d) = JStr c ->
  is_env_file_access (JStr tool) (JObj d)
  = Ok (if contains ".env" p
        then negb (contains ".env.sample" p || contains ".env.example" p)
        else String.eqb tool "Bash" && env_command_fires c).
Proof.
  intros Ht Hp Hc. unfold is_env_file_access.
  assert (E : existsb (eq_str (JStr tool)) env_tools = true).
  { apply existsb_exists. exists tool. split; [exact Ht | apply String.eqb_refl]. }
  rewrite E. cbn [negb]. unfold get. rewrite Hp, Hc.
  unfold mbind at 1, res_bind at 1. rewrite named_in_path.
  unfold mbind at 1, res_bind at 1.
  destruct (contains ".env" p).
  - rewrite names_template_str. reflexivity.
  - cbn [eq_str]. destruct (String.eqb tool "Bash"); [|reflexivity].
    unfold mbind at 1, res_bind at 1. cbn [str_in].
    unfold mbind at 1, res_bind at 1. unfold env_command_fires.
    destruct (contains ".env" c); [|reflexivity].
    rewrite names_template_str. unfold mbind at 1, res_bind at 1.
    destruct (contains ".env.sample" c || contains ".env.example" c);
      [reflexivity | apply any_search_str].
Qed.




(** The rule checks of [main] on a shell record with string parameters. *)
Lemma check_rules_bash d c p :
  default (JStr "") (dict_get "file_path" d) = JStr p ->
  dict_get "command" d = Some (JStr c) ->
  check_rules (JStr "Bash") (JObj d)
  = Ok (if (if contains ".env" p
            then negb (contains ".env.sample" p || contains ".env.example" p)
            else env_command_fires c)
        then BLOCK env_reason
        else if dangerous_rm_text (join " " (split c))
             then BLOCK (rm_reason c)
             else ALLOW).
Proof.
  intros Hp Hc. unfold check_rules.
  rewrite (env_access_strings "Bash" d c p); [|simpl; tauto|exact Hp|now rewrite Hc].
  unfold mbind at 1, res_bind at 1. cbn [String.eqb Ascii.eqb Bool.eqb andb].
  match goal with |- (if ?b then _ else _) = _ => destruct b end; [reflexivity|].
  cbn [eq_str String.eqb Ascii.eqb Bool.eqb]. unfold get. rewrite Hc.
  unfold is_dangerous_rm_command, mbind, res_bind, mret, res_ret.
  cbn [from_option id str_split format].
  destruct (dangerous_rm_text (join " " (split c))); reflexivity.
Qed.

(** [is_env_file_access] for another tool of [env_tools]: only the
    file path counts. *)
Lemma env_access_file tool d p :
  In tool env_tools -> tool <> "Bash"%string ->
  default (JStr "") (dict_get "file_path" d) = JStr p ->
  is_env_file_access (JStr tool) (JObj d)
  = Ok (contains ".env" p
        && negb (contains ".env.sample" p || contains ".env.example" p)).
Proof.
  intros Ht Hn Hp. unfold is_env_file_access.
  assert (E : existsb (eq_str (JStr tool)) env_tools = true).
  { apply existsb_exists. exists tool. split; [exact Ht | apply String.eqb_refl]. }
  apply String.eqb_neq in Hn.
  rewrite E. cbn [negb]. unfold get. rewrite Hp.
  unfold mbind at 1, res_bind at 1. rewrite named_in_path.
  unfold mbind at 1, res_bind at 1. cbn [eq_str]. rewrite Hn.
  destruct (contains ".env" p); [|reflexivity].
  rewrite names_template_str. reflexivity.
Qed.

(** The rule checks of [main] on such a record. *)
Lemma check_rules_file tool d p :
  In tool env_tools -> tool <> "Bash"%string ->
  default (JStr "") (dict_get "file_path" d) = JStr p ->
  check_rules (JStr tool) (JObj d)
  = Ok (if contains ".env" p
           && negb (contains ".env.sample" p || contains ".env.example" p)
        then BLOCK env_reason else ALLOW).
Proof.
  intros Ht Hn Hp. unfold check_rules.
  rewrite (env_access_file tool d p Ht Hn Hp).
  unfold mbind at 1, res_bind at 1.
  match goal with |- (if ?b then _ else _) = _ => destruct b end; [reflexivity|].
  apply String.eqb_neq in Hn. cbn [eq_str]. now rewrite Hn.
Qed.

End GuardFacts.

(* ===================================================================== *)
(** ** The guard's decisions *)
(* ===================================================================== *)

Lemma evaluate_tool d tool :
  dict_get "tool" d = Some (JStr tool) ->
  evaluate (JObj d) = check_rules (JStr tool) (JObj d).
Proof. intros H. unfold evaluate, get. now rewrite H. Qed.




(** A pattern that ends with a character class matches only in a text
    that holds a character of the class. *)
Lemma match_k_needs_last p rs : forall k prev s,
  match_k (Cat (rs ++ [Chr p])) k prev s = true -> any_char p s = true.
Proof.
  induction rs as [|r rs IH]; intros k prev s H.
  - destruct s as [|c s]; simpl in H; [discriminate|].
    apply andb_true_iff in H as [Hc _]. simpl. now rewrite Hc.
  - change (match_k r (match_k (Cat (rs ++ [Chr p])) k) prev s = true) in H.
    apply match_k_iff in H as (m & rest & -> & _ & H).
    rewrite any_char_app, (IH _ _ _ H). apply orb_true_r.
Qed.

Lemma search_needs_last p rs s :
  search (Cat (rs ++ [Chr p])) s = true -> any_char p s = true.
Proof.
  unfold search. generalize (@None ascii) as prev.
  induction s as [|c s IH]; intros prev H; simpl in H.
  - rewrite orb_false_r in H. now apply match_k_needs_last in H.
  - apply orb_true_iff in H as [H|H].
    + now apply match_k_needs_last in H.
    + simpl. rewrite (IH _ H). apply orb_true_r.
Qed.

(** No dangerous token in the command: none in its normal form. *)
Lemma no_token_normalised c :
  (forall token, In token dangerous_paths -> contains token c = false) ->
  existsb (fun path => contains path (join " " (split c))) dangerous_paths = false.
Proof.
  intros H. apply not_true_is_false. intros E.
  apply existsb_exists in E as (path & Hin & Hc).
  apply contains_normalised in Hc; [|now apply dangerous_path_word].
  now rewrite (H path Hin) in Hc.
Qed.

(** A command that holds none of the dangerous tokens is not a dangerous
    [rm]. *)
Lemma no_token_not_dangerous c :
  (forall token, In token dangerous_paths -> contains token c = false) ->
  dangerous_rm_text (join " " (split c)) = false.
Proof.
  intros H. unfold dangerous_rm_text. apply orb_false_iff. split.
  - rewrite (no_token_normalised c H). unfold rm_patterns. cbn [existsb].
    now rewrite !andb_false_r.
  - apply not_true_is_false. intros E.
    apply (search_needs_last (one_of "~/.")
             [Bound; Str "rm"; Plus is_space; Str "-"; Chr (one_of "rR"); Str "f";
              Plus is_space]) in E.
    apply any_char_one_of in E as (x & Hx & Hc).
    simpl in Hx. rewrite orb_false_r in Hx.
    assert (T : In (String x EmptyString) dangerous_paths).
    { apply orb_true_iff in Hx as [Hx|Hx]; [|apply orb_true_iff in Hx as [Hx|Hx]];
        apply Ascii.eqb_eq in Hx; subst x; simpl; tauto. }
    apply contains_normalised in Hc; [|now apply dangerous_path_word].
    now rewrite (H _ T) in Hc.
Qed.

(** The claim C2 names [rm -rf build/] as a command to allow; the guard
    blocks it, as its text holds the token [/]. *)
Lemma rm_rf_build_slash_blocked :
  evaluate (bash "s1" "rm -rf build/") = Ok (BLOCK (rm_reason "rm -rf build/"))
  /\ evaluate (bash "s1" "rm -rf build/") <> Ok ALLOW.
Proof. split; [vm_compute; reflexivity | vm_compute; discriminate]. Qed.

(** C2, amended. A shell invocation [rm -rf path] is allowed when none of
    the dangerous tokens occurs anywhere in [path], as in [rm -rf build],
    and the record's [file_path], if it has one, is a string that does not
    hold [.env]. *)
Theorem rm_rf_plain_path_allowed (d : list (string * json)) (path p : string) :
  dict_get "tool" d = Some (JStr "Bash") ->
  dict_get "command" d = Some (JStr ("rm -rf " +:+ path)) ->
  default (JStr "") (dict_get "file_path" d) = JStr p ->
  contains ".env" p = false ->
  (forall token, In token dangerous_paths -> contains token path = false) ->
  evaluate (JObj d) = Ok ALLOW.
Proof.
  intros Htool Hcmd Hfp Hp Hpath.
  assert (Hc : forall token, In token dangerous_paths ->
                             contains token ("rm -rf " +:+ path) = false).
  { intros token Hin. specialize (Hpath token Hin). revert Hpath.
    repeat (destruct Hin as [<-|Hin]; [now (cbn; intros ->)|]). destruct Hin. }
  rewrite (evaluate_tool d "Bash" Htool).
  rewrite (check_rules_bash d _ p Hfp Hcmd), Hp.
  rewrite (no_token_not_dangerous _ Hc).
  assert (E : env_command_fires ("rm -rf " +:+ path) = false).
  { unfold env_command_fires.
    assert (D : contains ".env" ("rm -rf " +:+ path) = false).
    { apply not_true_is_false. intros D.
      apply (contains_shorter "." "env") in D.
      rewrite (Hc "."%string) in D; [discriminate | simpl; tauto]. }
    now rewrite D. }
  rewrite E. reflexivity.
Qed.

Lemma rm_rf_plain_path_allowed_witness :
  evaluate (bash "s1" "rm -rf build") = Ok ALLOW.
Proof.
  apply (rm_rf_plain_path_allowed _ "build" ""); try reflexivity.
  intros token Hin. simpl in Hin.
  repeat (destruct Hin as [<-|Hin]; [reflexivity|]). destruct Hin.
Defined.

(* ===================================================================== *)
(** ** What the patterns on [.env] say *)
(* ===================================================================== *)

Section Idioms.

Lemma Matches_Str s : forall prev m rest,
  Matches (Str s) prev m rest <-> m = s.
Proof.
  induction s as [|c s IH]; intros prev m rest; simpl.
  - split; [intros H; now inversion H | intros ->; constructor].
  - split.
    + intros H. inversion H as [| |? ? ? m1 m2 ? H1 H2| | | |]; subst.
      inversion H1; subst. apply IH in H2 as ->.
      match goal with E : lit _ _ = true |- _ => apply Ascii.eqb_eq in E as -> end.
      reflexivity.
    + intros ->. change (String c s) with (String c EmptyString +:+ s).
      constructor; [constructor; apply Ascii.eqb_refl | now apply IH].
Qed.

Lemma Matches_Plus p prev m rest :
  Matches (Plus p) prev m rest <-> m <> EmptyString /\ all_chars p m = true.
Proof.
  unfold Plus. split.
  - intros H. inversion H as [| |? ? ? m1 m2 ? H1 H2| | | |]; subst.
    inversion H1; subst. inversion H2; subst. simpl. split; [discriminate|].
    now apply andb_true_iff.
  - intros [N A]. destruct m as [|c m]; [now elim N|]. simpl in A.
    apply andb_true_iff in A as [Hc Hm].
    change (String c m) with (String c EmptyString +:+ m).
    constructor; now constructor.
Qed.

Lemma Matches_Star p prev m rest :
  Matches (Star p) prev m rest <-> all_chars p m = true.
Proof. split; [intros H; now inversion H | now constructor]. Qed.

Lemma Matches_Seq r1 r2 prev m rest :
  Matches (Seq r1 r2) prev m rest <->
  exists m1 m2, m = m1 +:+ m2 /\ Matches r1 prev m1 (m2 +:+ rest)
                /\ Matches r2 (last_char prev m1) m2 rest.
Proof.
  split.
  - intros H. inversion H; subst. now eexists _, _.
  - intros (m1 & m2 & -> & H1 & H2). now constructor.
Qed.

Lemma Matches_Eps prev m rest : Matches Eps prev m rest <-> m = EmptyString.
Proof. split; [intros H; now inversion H | intros ->; constructor]. Qed.

Lemma gap_iff ws : gap ws = true <-> ws <> EmptyString /\ all_chars is_space ws = true.
Proof.
  split; [apply gap_inv|]. intros [N A]. unfold gap. rewrite A, andb_true_r.
  apply negb_true_iff, String.eqb_neq. exact N.
Qed.

(** [a\s+b] *)
Lemma search_word_gap_word a b c :
  search (Cat [Str a; Plus is_space; Str b]) c = true <->
  exists pre ws post, gap ws = true /\ c = pre +:+ a +:+ ws +:+ b +:+ post.
Proof.
  rewrite search_iff. unfold Cat, fold_right. split.
  - intros (pre & m & post & -> & H).
    apply Matches_Seq in H as (m1 & n1 & -> & H1 & H).
    apply Matches_Seq in H as (m2 & n2 & -> & H2 & H).
    apply Matches_Seq in H as (m3 & n3 & -> & H3 & H).
    apply Matches_Str in H1 as ->. apply Matches_Plus, gap_iff in H2.
    apply Matches_Str in H3 as ->. apply Matches_Eps in H as ->.
    exists pre, m2, post. split; [exact H2|].
    now rewrite append_nil_r, !append_assoc.
  - intros (pre & ws & post & G & ->).
    exists pre, (a +:+ ws +:+ b +:+ EmptyString), post.
    split; [now rewrite append_nil_r, !append_assoc|].
    apply gap_iff in G.
    repeat (apply M_Seq); try (now apply Matches_Str);
      [now apply Matches_Plus | constructor].
Qed.

(** [a\s+.*b] *)
Lemma search_word_gap_line_word a b c :
  search (Cat [Str a; Plus is_space; Star dot; Str b]) c = true <->
  exists pre ws line post,
    gap ws = true /\ all_chars dot line = true
    /\ c = pre +:+ a +:+ ws +:+ line +:+ b +:+ post.
Proof.
  rewrite search_iff. unfold Cat, fold_right. split.
  - intros (pre & m & post & -> & H).
    apply Matches_Seq in H as (m1 & n1 & -> & H1 & H).
    apply Matches_Seq in H as (m2 & n2 & -> & H2 & H).
    apply Matches_Seq in H as (m3 & n3 & -> & H3 & H).
    apply Matches_Seq in H as (m4 & n4 & -> & H4 & H).
    apply Matches_Str in H1 as ->. apply Matches_Plus, gap_iff in H2.
    apply Matches_Star in H3. apply Matches_Str in H4 as ->.
    apply Matches_Eps in H as ->.
    exists pre, m2, m3, post. repeat split; try assumption.
    now rewrite append_nil_r, !append_assoc.
  - intros (pre & ws & line & post & G & L & ->).
    exists pre, (a +:+ ws +:+ line +:+ b +:+ EmptyString), post.
    split; [now rewrite append_nil_r, !append_assoc|].
    apply gap_iff in G.
    repeat (apply M_Seq); try (now apply Matches_Str);
      [now apply Matches_Plus | now apply Matches_Star | constructor].
Qed.

(** [echo\s+.*>\s*\.env] *)
Lemma search_echo_into_env c :
  search (Cat [Str "echo"; Plus is_space; Star dot; Str ">"; Star is_space; Str ".env"]) c
  = true <->
  exists pre ws line ws' post,
    gap ws = true /\ all_chars dot line = true /\ all_chars is_space ws' = true
    /\ c = pre +:+ "echo" +:+ ws +:+ line +:+ ">" +:+ ws' +:+ ".env" +:+ post.
Proof.
  rewrite search_iff. unfold Cat, fold_right. split.
  - intros (pre & m & post & -> & H).
    apply Matches_Seq in H as (m1 & n1 & -> & H1 & H).
    apply Matches_Seq in H as (m2 & n2 & -> & H2 & H).
    apply Matches_Seq in H as (m3 & n3 & -> & H3 & H).
    apply Matches_Seq in H as (m4 & n4 & -> & H4 & H).
    apply Matches_Seq in H as (m5 & n5 & -> & H5 & H).
    apply Matches_Seq in H as (m6 & n6 & -> & H6 & H).
    apply Matches_Str in H1 as ->. apply Matches_Plus, gap_iff in H2.
    apply Matches_Star in H3. apply Matches_Str in H4 as ->.
    apply Matches_Star in H5. apply Matches_Str in H6 as ->.
    apply Matches_Eps in H as ->.
    exists pre, m2, m3, m5, post. repeat split; try assumption.
    now rewrite append_nil_r, !append_assoc.
  - intros (pre & ws & line & ws' & post & G & L & W & ->).
    exists pre, ("echo" +:+ ws +:+ line +:+ ">" +:+ ws' +:+ ".env" +:+ EmptyString), post.
    split; [now rewrite append_nil_r, !append_assoc|].
    apply gap_iff in G.
    repeat (apply M_Seq); try (now apply Matches_Str);
      [now apply Matches_Plus | now apply Matches_Star | now apply Matches_Star
      | constructor].
Qed.

(** The five patterns say what [direct_access] says. *)
Lemma env_patterns_direct_access c :
  existsb (fun r => search r c) env_patterns = true <-> direct_access c.
Proof.
  unfold env_patterns. cbn [existsb]. rewrite !orb_true_iff.
  rewrite !search_word_gap_word, !search_word_gap_line_word, search_echo_into_env.
  split.
  - intros [H|[H|[H|[H|[H|H]]]]]; [| | | | |discriminate].
    + destruct H as (pre & ws & post & G & ->). now constructor.
    + destruct H as (pre & ws & line & ws' & post & G & L & W & ->). now constructor.
    + destruct H as (pre & ws & post & G & ->). now constructor.
    + destruct H as (pre & ws & line & post & G & L & ->). now constructor.
    + destruct H as (pre & ws & line & post & G & L & ->). now constructor.
  - intros H. destruct H as [pre ws post G|pre ws line ws' post G L W|pre ws post G
                            |pre ws line post G L|pre ws line post G L].
    + left. exists pre, ws, post. now split.
    + right; left. exists pre, ws, line, ws', post. now repeat split.
    + right; right; left. exists pre, ws, post. now split.
    + right; right; right; left. exists pre, ws, line, post. now repeat split.
    + right; right; right; right; left. exists pre, ws, line, post. now repeat split.
Qed.

End Idioms.

(* ===================================================================== *)
(** ** The rule on [.env] *)
(* ===================================================================== *)

(** The claim C3 lets the command alone decide for a shell invocation;
    the guard looks at [file_path] first, for every tool of [env_tools]:
    this one fires on a command that does not mention [.env]. *)
Lemma env_rule_fires_on_bash_file_path :
  is_env_file_access (JStr "Bash")
    (record "s1" "Bash" [("command"%string, JStr "ls"); ("file_path"%string, JStr ".env")])
  = Ok true
  /\ contains ".env" "ls" = false
  /\ evaluate
       (record "s1" "Bash" [("command"%string, JStr "ls"); ("file_path"%string, JStr ".env")])
     = Ok (BLOCK env_reason).
Proof. repeat split; vm_compute; reflexivity. Qed.

(** C3, amended. For a shell invocation whose command is a string (the
    empty one when the record has none) and whose [file_path], if it has
    one, is a string that does not hold [.env], the rule on [.env]
    returns, and fires exactly when the command holds [.env], holds
    neither [.env.sample] nor [.env.example], and shows one of the
    direct-access idioms. So a command that only mentions [.env] does not
    fire it. A shell invocation whose [file_path] is a string that holds
    [.env] and neither [.env.sample] nor [.env.example] fires the rule
    whatever its command is, a string or not, there or not. [cat .env] is
    blocked; [cat .env.sample] and [echo hello] are allowed. *)
Theorem env_rule_on_commands (d : list (string * json)) (sid : string) :
  (forall c p,
      default (JStr "") (dict_get "command" d) = JStr c ->
      default (JStr "") (dict_get "file_path" d) = JStr p ->
      contains ".env" p = false ->
      (is_env_file_access (JStr "Bash") (JObj d) = Ok true <->
       contains ".env" c = true /\ contains ".env.sample" c = false
       /\ contains ".env.example" c = false /\ direct_access c)
      /\ (is_env_file_access (JStr "Bash") (JObj d) = Ok true
          \/ is_env_file_access (JStr "Bash") (JObj d) = Ok false))
  /\ (forall p,
         dict_get "file_path" d = Some (JStr p) ->
         contains ".env" p = true ->
         contains ".env.sample" p = false -> contains ".env.example" p = false ->
         is_env_file_access (JStr "Bash") (JObj d) = Ok true
         /\ (dict_get "tool" d = Some (JStr "Bash") ->
             evaluate (JObj d) = Ok (BLOCK env_reason)))
  /\ evaluate (bash sid "cat .env") = Ok (BLOCK env_reason)
  /\ evaluate (bash sid "cat .env.sample") = Ok ALLOW
  /\ evaluate (bash sid "echo hello") = Ok ALLOW.
Proof.
  split; [|split; [|repeat split]].
  - intros c p Hc Hfp Hp.
    rewrite (env_access_strings "Bash" d c p); [|simpl; tauto|exact Hfp|exact Hc].
    rewrite Hp. cbn [String.eqb Ascii.eqb Bool.eqb andb]. unfold env_command_fires.
    split.
    + rewrite <- env_patterns_direct_access. split.
      * intros H. injection H as H.
        apply andb_true_iff in H as [H H3]. apply andb_true_iff in H as [H1 H2].
        apply negb_true_iff, orb_false_iff in H2 as [H2 H2'].
        now repeat split.
      * intros (H1 & H2 & H2' & H3). now rewrite H1, H2, H2', H3.
    + match goal with |- Ok ?b = _ \/ _ => destruct b end; [now left | now right].
  - intros p Hfp H1 H2 H3.
    assert (E : is_env_file_access (JStr "Bash") (JObj d) = Ok true).
    { unfold is_env_file_access.
      change (existsb (eq_str (JStr "Bash")) env_tools) with true. cbn [negb].
      unfold get. rewrite Hfp. cbn [from_option id].
      unfold mbind at 1, res_bind at 1. rewrite named_in_path.
      unfold mbind at 1, res_bind at 1. rewrite H1, names_template_str, H2, H3.
      reflexivity. }
    split; [exact E|]. intros Htool.
    rewrite (evaluate_tool d "Bash" Htool). unfold check_rules. now rewrite E.
Qed.

Lemma env_rule_on_commands_witness :
  (is_env_file_access (JStr "Bash") (bash "s1" "grep KEY .env") = Ok true <->
   contains ".env" "grep KEY .env" = true /\ contains ".env.sample" "grep KEY .env" = false
   /\ contains ".env.example" "grep KEY .env" = false /\ direct_access "grep KEY .env")
  /\ evaluate (record "s1" "Bash" [("command"%string, JArr [JStr "ls"]);
                                   ("file_path"%string, JStr "config/.env")])
     = Ok (BLOCK env_reason)
  /\ evaluate (bash "s1" "cat .env") = Ok (BLOCK env_reason)
  /\ evaluate (bash "s1" "cat .env.sample") = Ok ALLOW
  /\ evaluate (bash "s1" "echo hello") = Ok ALLOW.
Proof.
  destruct (env_rule_on_commands
              [("sessionId"%string, JStr "s1"); ("tool"%string, JStr "Bash");
               ("command"%string, JStr "grep KEY .env")] "s1")
    as (H1 & _ & H2 & H3 & H4).
  destruct (env_rule_on_commands
              [("sessionId"%string, JStr "s1"); ("tool"%string, JStr "Bash");
               ("command"%string, JArr [JStr "ls"]);
               ("file_path"%string, JStr "config/.env")] "s1")
    as (_ & H5 & _).
  split; [exact (proj1 (H1 "grep KEY .env"%string ""%string eq_refl eq_refl eq_refl))|].
  split; [exact (proj2 (H5 "config/.env"%string eq_refl eq_refl eq_refl eq_refl) eq_refl)|].
  exact (conj H2 (conj H3 H4)).
Defined.

(** C4. An invocation of a file tool ([Edit], and [Read], [MultiEdit],
    [Write] alike) whose [file_path] holds [.env] and neither
    [.env.sample] nor [.env.example] is blocked; with the path
    [.env.sample] or [.env.example] it is allowed. *)
Theorem env_file_path_decisions (d : list (string * json)) (tool path : string) :
  In tool env_tools -> tool <> "Bash"%string ->
  dict_get "tool" d = Some (JStr tool) ->
  dict_get "file_path" d = Some (JStr path) ->
  (contains ".env" path = true -> contains ".env.sample" path = false ->
   contains ".env.example" path = false ->
   evaluate (JObj d) = Ok (BLOCK env_reason))
  /\ (path = ".env.sample"%string \/ path = ".env.example"%string ->
      evaluate (JObj d) = Ok ALLOW).
Proof.
  intros Hin Hn Htool Hpath.
  rewrite (evaluate_tool d tool Htool).
  rewrite (check_rules_file tool d path Hin Hn ltac:(now rewrite Hpath)).
  split.
  - intros -> -> ->. reflexivity.
  - intros [->| ->]; reflexivity.
Qed.

Lemma env_file_path_decisions_witness :
  evaluate (record "s1" "Edit" [("file_path"%string, JStr "config/.env")])
  = Ok (BLOCK env_reason)
  /\ evaluate (record "s1" "Edit" [("file_path"%string, JStr ".env.sample")]) = Ok ALLOW
  /\ evaluate (record "s1" "Edit" [("file_path"%string, JStr ".env.example")]) = Ok ALLOW.
Proof.
  assert (T : In "Edit"%string env_tools) by (simpl; tauto).
  assert (N : "Edit"%string <> "Bash"%string) by discriminate.
  split; [|split].
  - exact (proj1 (env_file_path_decisions
                    [("sessionId"%string, JStr "s1"); ("tool"%string, JStr "Edit");
                     ("file_path"%string, JStr "config/.env")]
                    "Edit" "config/.env" T N eq_refl eq_refl)
             eq_refl eq_refl eq_refl).
  - exact (proj2 (env_file_path_decisions
                    [("sessionId"%string, JStr "s1"); ("tool"%string, JStr "Edit");
                     ("file_path"%string, JStr ".env.sample")]
                    "Edit" ".env.sample" T N eq_refl eq_refl)
             (or_introl eq_refl)).
  - exact (proj2 (env_file_path_decisions
                    [("sessionId"%string, JStr "s1"); ("tool"%string, JStr "Edit");
                     ("file_path"%string, JStr ".env.example")]
                    "Edit" ".env.example" T N eq_refl eq_refl)
             (or_intror eq_refl)).
Defined.

(* ===================================================================== *)
(** ** Facts about the audit recorder *)
(* ===================================================================== *)

Section RecorderFacts.

(** [mkdir] leaves a world where the directory is there, or raises. *)
Lemma mkdir_logs_eq w :
  mkdir_logs w = if logs_dir_ok w then (Ok tt, made w) else (Raise OSError, w).
Proof. destruct w as [[[|]|entries] v s]; reflexivity. Qed.

Lemma files_made w : files (made w) = files w.
Proof. destruct w as [[makeable|entries] v s]; reflexivity. Qed.

Lemma vacant_made w : vacant (made w) = vacant w.
Proof. destruct w as [[makeable|entries] v s]; reflexivity. Qed.

Lemma short_write_made w : short_write (made w) = short_write w.
Proof. destruct w as [[makeable|entries] v s]; reflexivity. Qed.

Lemma set_file_made w name f : set_file (made w) name f = set_file w name f.
Proof. unfold set_file. now rewrite files_made, vacant_made, short_write_made. Qed.

Lemma made_there w name f : files w !! name = Some f -> made w = w.
Proof.
  destruct w as [[makeable|entries] v s]; [|reflexivity].
  unfold files. simpl. rewrite lookup_empty. discriminate.
Qed.

(** One call of the recorder on a record, step by step: [mkdir], the
    look for the log and its reading, [logs.append], the write. *)
Lemma append_to_log_table stage d w :
  append_to_log stage (JObj d) w
  = if logs_dir_ok w then
      match loaded w (log_file stage (session_of d)) with
      | Ok (JArr records) =>
          match write_json (log_file stage (session_of d))
                           (JArr (records ++ [JObj d])) (made w) with
          | (Raise OSError, w') => (Ok tt, w')
          | other => other
          end
      | Ok _ => (Raise AttributeError, made w)
      | Raise e => (Raise e, made w)
      end
    else (Raise OSError, w).
Proof.
  unfold append_to_log. cbn [get]. fold (session_of d).
  set (name := log_file stage (session_of d)).
  unfold mbind at 1, io_bind at 1. unfold lift at 1. cbv beta iota. fold name.
  unfold mbind at 1, io_bind at 1. rewrite mkdir_logs_eq.
  destruct (logs_dir_ok w); [|reflexivity].
  unfold path_exists, try_except, read_text, lift, mbind, io_bind, mret, io_ret, loaded.
  rewrite files_made, vacant_made.
  destruct (files w !! name) as [[body r wr]|] eqn:E.
  - rewrite files_made, E. cbn [readable content].
    destruct r; [destruct body as [[| | | | |items|]|raw|v| | |]|]; cbn;
      try reflexivity;
      match goal with
      | |- context [write_json ?n ?v ?w] =>
          destruct (write_json n v w) as [[[]|[]] w']; reflexivity
      end.
  - destruct (has_nul name); [|destruct (vacant w name)]; cbn;
      try reflexivity;
      match goal with
      | |- context [write_json ?n ?v ?w] =>
          destruct (write_json n v w) as [[[]|[]] w']; reflexivity
      end.
Qed.

(** The write, in the world [mkdir] leaves. *)
Lemma write_json_made name v w :
  write_json name v (made w)
  = match files w !! name with
    | Some f =>
        if writable f then
          if short_write w name
          then (Raise OSError, set_file w name (File (CutShort v) (readable f) true))
          else (Ok tt, set_file w name (File (Text v) (readable f) true))
        else (Raise OSError, made w)
    | None =>
        if has_nul name then (Raise ValueError, made w)
        else match vacant w name with
             | Free =>
                 if short_write w name
                 then (Raise OSError, set_file w name (File (CutShort v) true true))
                 else (Ok tt, set_file w name (File (Text v) true true))
             | _ => (Raise OSError, made w)
             end
    end.
Proof.
  unfold write_json, dump_into.
  rewrite files_made, vacant_made, short_write_made.
  destruct (files w !! name) as [f|]; rewrite ?set_file_made; reflexivity.
Qed.

(** When the recorder returns, what it read is the list [previous]
    names. *)
Lemma loaded_previous w name :
  recorder_returns w name = true -> loaded w name = Ok (JArr (previous w name)).
Proof.
  unfold recorder_returns, loaded, previous. intros H.
  apply andb_true_iff in H as [_ H].
  destruct (files w !! name) as [[body r wr]|].
  - destruct r; [|now destruct body as [[]| | | | |]].
    destruct body as [[| | | | |items|]|raw|v| | |]; try discriminate; reflexivity.
  - apply andb_true_iff in H as [N H]. apply negb_true_iff in N. rewrite N.
    now destruct (vacant w name).
Qed.

Lemma appendable_returns w name : appendable w name = true -> recorder_returns w name = true.
Proof.
  unfold appendable, recorder_returns, creatable. intros H.
  apply andb_true_iff in H as [-> H]. cbn [andb].
  destruct (files w !! name) as [[body r wr]|].
  - now apply andb_true_iff in H as [_ ->].
  - apply andb_true_iff in H as [H _]. apply andb_true_iff in H as [-> H].
    now destruct (vacant w name).
Qed.

(** One append to a log in working order: it returns, and the file
    holds what the recorder found followed by the new record. *)
Lemma append_to_log_ok stage d w :
  appendable w (log_file stage (session_of d)) = true ->
  append_to_log stage (JObj d) w
  = (Ok tt, set_file w (log_file stage (session_of d))
              (appended w (log_file stage (session_of d)) (JObj d))).
Proof.
  intros H. rewrite append_to_log_table, (loaded_previous _ _ (appendable_returns _ _ H)).
  rewrite write_json_made. unfold appended.
  unfold appendable, creatable in H. apply andb_true_iff in H as [-> H].
  destruct (files w !! log_file stage (session_of d)) as [[body r wr]|].
  - apply andb_true_iff in H as [H _]. apply andb_true_iff in H as [-> H].
    apply negb_true_iff in H. cbn [writable readable]. now rewrite H.
  - apply andb_true_iff in H as [H S]. apply andb_true_iff in H as [N H].
    apply negb_true_iff in N, S. rewrite N, S.
    now destruct (vacant w (log_file stage (session_of d))).
Qed.

(** The log cannot be opened for writing: the recorder returns all the
    same, and no file is changed. *)
Lemma append_to_log_refused stage d w :
  recorder_returns w (log_file stage (session_of d)) = true ->
  unwritable w (log_file stage (session_of d)) = true ->
  append_to_log stage (JObj d) w = (Ok tt, made w).
Proof.
  intros H U. rewrite append_to_log_table, (loaded_previous _ _ H), write_json_made.
  unfold recorder_returns in H. apply andb_true_iff in H as [-> H].
  unfold unwritable in U.
  destruct (files w !! log_file stage (session_of d)) as [[body r wr]|].
  - apply negb_true_iff in U. cbn [writable] in *. now rewrite U.
  - apply andb_true_iff in H as [N _]. apply negb_true_iff in N. rewrite N.
    now destruct (vacant w (log_file stage (session_of d))).
Qed.

(** The write breaks: the recorder returns all the same, and the log is
    left cut short. *)
Lemma append_to_log_cut stage d w :
  recorder_returns w (log_file stage (session_of d)) = true ->
  breaks_off w (log_file stage (session_of d)) = true ->
  append_to_log stage (JObj d) w
  = (Ok tt, set_file w (log_file stage (session_of d))
              (cut_off w (log_file stage (session_of d)) (JObj d))).
Proof.
  intros H U. rewrite append_to_log_table, (loaded_previous _ _ H), write_json_made.
  unfold recorder_returns in H. apply andb_true_iff in H as [-> H].
  unfold breaks_off in U. apply andb_true_iff in U as [S U]. rewrite S.
  unfold cut_off.
  destruct (files w !! log_file stage (session_of d)) as [[body r wr]|].
  - cbn [writable readable] in *. now rewrite U.
  - apply andb_true_iff in H as [N _]. apply negb_true_iff in N. rewrite N.
    now destruct (vacant w (log_file stage (session_of d))).
Qed.

(** The three ways the write can go. *)
Lemma write_three_ways w name :
  recorder_returns w name = true ->
  appendable w name = true \/ unwritable w name = true \/ breaks_off w name = true.
Proof.
  unfold recorder_returns, appendable, unwritable, breaks_off, creatable. intros H.
  apply andb_true_iff in H as [-> H]. cbn [andb].
  destruct (files w !! name) as [[body r wr]|].
  - cbn [writable]. rewrite H. destruct wr, (short_write w name); cbn; tauto.
  - apply andb_true_iff in H as [-> H]. cbn [negb andb].
    destruct (vacant w name), (short_write w name); cbn; tauto.
Qed.

(** The recorder returns exactly when [recorder_returns] says so. *)
Lemma append_to_log_returns stage d w :
  recorder_returns w (log_file stage (session_of d)) = true ->
  exists w', append_to_log stage (JObj d) w = (Ok tt, w').
Proof.
  intros H. destruct (write_three_ways _ _ H) as [A|[U|B]].
  - rewrite (append_to_log_ok _ _ _ A). now eexists.
  - rewrite (append_to_log_refused _ _ _ H U). now eexists.
  - rewrite (append_to_log_cut _ _ _ H B). now eexists.
Qed.

Lemma append_to_log_fails stage d w :
  recorder_returns w (log_file stage (session_of d)) = false ->
  exists e,
    append_to_log stage (JObj d) w = (Raise e, if logs_dir_ok w then made w else w).
Proof.
  intros H. rewrite append_to_log_table.
  unfold recorder_returns in H. unfold loaded.
  destruct (logs_dir_ok w); [|now eexists]. cbn [andb] in H.
  destruct (files w !! log_file stage (session_of d)) as [[body r wr]|] eqn:E.
  - destruct r; [|discriminate].
    destruct body as [[| | | | |items|]|raw|v| | |]; try discriminate; now eexists.
  - destruct (has_nul (log_file stage (session_of d))) eqn:N.
    + rewrite write_json_made, E, N. now eexists.
    + destruct (vacant w (log_file stage (session_of d))); try discriminate.
      now eexists.
Qed.


Lemma files_set_file w name f : files (set_file w name f) !! name = Some f.
Proof. unfold set_file, files. simpl. apply lookup_insert_eq. Qed.



(** A log that does not parse, in a file that can be written, is replaced
    by a log of the new record alone. *)
Lemma append_to_garbled_log stage d w raw r :
  short_write w (log_file stage (session_of d)) = false ->
  files w !! log_file stage (session_of d) = Some (File (Garbled raw) r true) ->
  append_to_log stage (JObj d) w
  = (Ok tt, set_file w (log_file stage (session_of d))
              (File (Text (JArr [JObj d])) r true)).
Proof.
  intros Hshort Hfile.
  rewrite append_to_log_ok.
  - unfold appended, previous. rewrite Hfile. now destruct r.
  - unfold appendable, logs_dir_ok. rewrite Hfile, Hshort.
    unfold files in Hfile. destruct (directory w).
    + rewrite lookup_empty in Hfile. discriminate Hfile.
    + now destruct r.
Qed.

(** A log that parses to something other than a list makes the recorder
    raise, and stays as it is. *)
Lemma append_to_log_raises stage d w v wr :
  logs_dir_ok w = true ->
  files w !! log_file stage (session_of d) = Some (File (Text v) true wr) ->
  (forall records, v <> JArr records) ->
  append_to_log stage (JObj d) w = (Raise AttributeError, w).
Proof.
  intros Hdir Hfile Hv.
  rewrite append_to_log_table, Hdir. unfold loaded. rewrite Hfile. cbn [json_load].
  rewrite (made_there _ _ _ Hfile).
  destruct v as [| | | | |records|]; try reflexivity. now elim (Hv records).
Qed.

End RecorderFacts.

(* ===================================================================== *)
(** ** The two hooks as processes *)
(* ===================================================================== *)





(** C7, on the code. A log that does not parse is replaced by a log of
    one record; a log that parses to something other than a list, here
    an object, makes either recorder raise [AttributeError], which nothing
    catches: the log is left as it was, the guard ends with status 1 and
    decides nothing. *)
Theorem log_holding_an_object_raises :
  let garbled := set_file empty_world "pre_tool_use_s1.json" (File (Garbled "[{") true true) in
  let object := set_file empty_world "pre_tool_use_s1.json" (File (Text (JObj [])) true true) in
  let object' := set_file empty_world "post_tool_use_s1.json" (File (Text (JObj [])) true true) in
  log_tool_call (bash "s1" "rm -rf /") garbled
  = (Ok tt, set_file garbled "pre_tool_use_s1.json"
              (File (Text (JArr [bash "s1" "rm -rf /"])) true true))
  /\ log_tool_call (bash "s1" "rm -rf /") object = (Raise AttributeError, object)
  /\ PostToolUse.log_tool_execution (bash "s1" "rm -rf /") object'
     = (Raise AttributeError, object')
  /\ PreToolUse.main (Text (bash "s1" "rm -rf /")) object = (Raise AttributeError, object)
  /\ exit_status (fst (PreToolUse.main (Text (bash "s1" "rm -rf /")) object)) = 1.
Proof. repeat split; vm_compute; reflexivity. Qed.

(** Where the logger does end with status 0: on a record, when the
    recorder returns; whether or not the log can be written. *)
Lemma post_logger_succeeds_on_records (d : list (string * json)) (w : world) :
  recorder_returns w (log_file "post_tool_use" (session_of d)) = true ->
  exists w', PostToolUse.main (Text (JObj d)) w = (Ok (Exit 0 []), w').
Proof.
  intros H. destruct (append_to_log_returns "post_tool_use" d w H) as [w' Hlog].
  exists w'. unfold PostToolUse.main, PostToolUse.log_tool_execution.
  cbn [json_load]. unfold mbind, io_bind. now rewrite Hlog.
Qed.

(** C8, on the code. A payload that [json.load] rejects with
    [JSONDecodeError] is ignored: both hooks end with status 0, print
    nothing and leave the world as it was. A payload on which [json.load]
    raises something else is not: 100000 opening brackets, which are no
    JSON, raise [RecursionError]; bytes that are not UTF-8 raise
    [UnicodeDecodeError]; an integer of 5000 digits raises [ValueError].
    [except json.JSONDecodeError] catches none of them, and both hooks end
    with status 1. *)
Theorem payload_beyond_the_parser_raises (raw : string) (w : world) :
  (PreToolUse.main (Garbled raw) w = (Ok (Exit 0 []), w)
   /\ PostToolUse.main (Garbled raw) w = (Ok (Exit 0 []), w))
  /\ (PreToolUse.main TooDeep w = (Raise RecursionError, w)
      /\ PostToolUse.main TooDeep w = (Raise RecursionError, w))
  /\ (PreToolUse.main Undecodable w = (Raise UnicodeDecodeError, w)
      /\ PostToolUse.main Undecodable w = (Raise UnicodeDecodeError, w))
  /\ (PreToolUse.main HugeNumber w = (Raise ValueError, w)
      /\ PostToolUse.main HugeNumber w = (Raise ValueError, w))
  /\ exit_status (fst (PreToolUse.main TooDeep w)) = 1
  /\ exit_status (fst (PostToolUse.main TooDeep w)) = 1.
Proof. repeat split. Qed.

(** C9, on the code. A payload that parses to something other than an
    object, here the empty list, makes the logger raise [AttributeError] at
    [data.get]; nothing catches it and the process ends with status 1. *)
Theorem post_logger_fails_on_a_list (w : world) :
  PostToolUse.main (Text (JArr [])) w = (Raise AttributeError, w)
  /\ exit_status (fst (PostToolUse.main (Text (JArr [])) w)) = 1.
Proof. split; reflexivity. Qed.

(** C10, on the code. The rule checks do not read [sessionId], and give
    the two records of each pair below the same decision; but [main] runs
    the recorder before the checks, and the recorder builds the name of
    the log from [sessionId]. With a NUL in it, [open] raises
    [ValueError]; with 300 characters, [exists] raises [OSError]; with a
    log that holds an object, [logs.append] raises [AttributeError].
    Nothing catches them: for that session the guard ends with status 1
    and no decision, where the same invocation in another session is
    blocked with status 2. *)
Theorem session_decides_guard_status :
  let object := set_file empty_world "pre_tool_use_s1.json" (File (Text (JObj [])) true true) in
  evaluate (bash nul_session "rm -rf /") = evaluate (bash "s2" "rm -rf /")
  /\ evaluate (bash long_session "rm -rf /") = evaluate (bash "s2" "rm -rf /")
  /\ evaluate (bash "s1" "rm -rf /") = evaluate (bash "s2" "rm -rf /")
  /\ fst (PreToolUse.main (Text (bash "s2" "rm -rf /")) empty_world)
     = Ok (Exit 2 (rm_reason "rm -rf /"))
  /\ PreToolUse.main (Text (bash nul_session "rm -rf /")) empty_world
     = (Raise ValueError, empty_world)
  /\ PreToolUse.main (Text (bash long_session "rm -rf /")) empty_world
     = (Raise OSError, empty_world)
  /\ fst (PreToolUse.main (Text (bash "s2" "rm -rf /")) object)
     = Ok (Exit 2 (rm_reason "rm -rf /"))
  /\ PreToolUse.main (Text (bash "s1" "rm -rf /")) object = (Raise AttributeError, object)
  /\ exit_status (fst (PreToolUse.main (Text (bash nul_session "rm -rf /")) empty_world)) = 1
  /\ exit_status (fst (PreToolUse.main (Text (bash "s2" "rm -rf /")) empty_world)) = 2.
Proof. repeat split; vm_compute; reflexivity. Qed.

(* ===================================================================== *)
(** ** What the patterns on [rm] say *)
(* ===================================================================== *)

(** Equal texts, up to how their parts are grouped. *)
Ltac same_text :=
  repeat (rewrite ?append_assoc, ?append_nil_r; simpl); reflexivity.

Section RmPatterns.

Lemma Matches_Bound prev m rest :
  Matches Bound prev m rest <-> m = EmptyString /\ at_boundary prev rest = true.
Proof.
  split; [intros H; now inversion H | intros [-> H]; now constructor].
Qed.

Lemma Matches_Alt r1 r2 prev m rest :
  Matches (Alt r1 r2) prev m rest <-> Matches r1 prev m rest \/ Matches r2 prev m rest.
Proof.
  split.
  - intros H. inversion H; subst; [now left | now right].
  - intros [H|H]; [now apply M_AltL | now apply M_AltR].
Qed.

Lemma Matches_Chr p prev m rest :
  Matches (Chr p) prev m rest <-> exists c, m = String c EmptyString /\ p c = true.
Proof.
  split.
  - intros H. inversion H; subst. now eexists.
  - intros (c & -> & H). now constructor.
Qed.

Lemma one_of_rR c : one_of "rR" c = true <-> c = "r"%char \/ c = "R"%char.
Proof.
  unfold one_of. simpl. rewrite orb_false_r, orb_true_iff, !Ascii.eqb_eq. tauto.
Qed.

(** What the four patterns have in common: [\brm\s+], then the rest. *)
Lemma search_rm_then tail cmd :
  search (Cat (Bound :: Str "rm" :: Plus is_space :: tail)) cmd = true <->
  exists pre ws m post,
    cmd = pre +:+ "rm" +:+ ws +:+ m +:+ post
    /\ word_at (last_char None pre) = false
    /\ gap ws = true
    /\ Matches (Cat tail) (last_char (Some "m"%char) ws) m post.
Proof.
  rewrite search_iff. split.
  - intros (pre & m & post & -> & H).
    change (Cat (Bound :: Str "rm" :: Plus is_space :: tail))
      with (Seq Bound (Seq (Str "rm") (Seq (Plus is_space) (Cat tail)))) in H.
    apply Matches_Seq in H as (m0 & n0 & -> & H0 & H).
    apply Matches_Seq in H as (m1 & n1 & -> & H1 & H).
    apply Matches_Seq in H as (m2 & n2 & -> & H2 & H).
    apply Matches_Bound in H0 as [-> B]. apply Matches_Str in H1 as ->.
    apply Matches_Plus, gap_iff in H2.
    exists pre, m2, n2, post. repeat split; try assumption.
    + now rewrite !append_assoc.
    + simpl in B. unfold at_boundary in B. simpl in B.
      destruct (word_at (last_char None pre)); [discriminate | reflexivity].
  - intros (pre & ws & m & post & -> & W & G & H).
    exists pre, (EmptyString +:+ "rm" +:+ ws +:+ m), post.
    split; [simpl; now rewrite !append_assoc|].
    change (Cat (Bound :: Str "rm" :: Plus is_space :: tail))
      with (Seq Bound (Seq (Str "rm") (Seq (Plus is_space) (Cat tail)))).
    apply gap_iff in G.
    apply M_Seq; [apply Matches_Bound; split; [reflexivity|]|].
    + unfold at_boundary. rewrite W. reflexivity.
    + apply M_Seq; [now apply Matches_Str|].
      apply M_Seq; [now apply Matches_Plus | exact H].
Qed.

(** [-[a-zA-Z]*a[a-zA-Z]*b[a-zA-Z]*] *)
Lemma Matches_dash_letters a b prev m rest :
  Matches (Cat [Str "-"; Star alpha; Str a; Star alpha; Str b; Star alpha]) prev m rest <->
  exists x y z,
    m = "-" +:+ x +:+ a +:+ y +:+ b +:+ z
    /\ all_chars alpha x = true /\ all_chars alpha y = true /\ all_chars alpha z = true.
Proof.
  unfold Cat, fold_right. split.
  - intros H.
    apply Matches_Seq in H as (m1 & n1 & -> & H1 & H).
    apply Matches_Seq in H as (m2 & n2 & -> & H2 & H).
    apply Matches_Seq in H as (m3 & n3 & -> & H3 & H).
    apply Matches_Seq in H as (m4 & n4 & -> & H4 & H).
    apply Matches_Seq in H as (m5 & n5 & -> & H5 & H).
    apply Matches_Seq in H as (m6 & n6 & -> & H6 & H).
    apply Matches_Str in H1 as ->. apply Matches_Star in H2.
    apply Matches_Str in H3 as ->. apply Matches_Star in H4.
    apply Matches_Str in H5 as ->. apply Matches_Star in H6.
    apply Matches_Eps in H as ->.
    exists m2, m4, m6. repeat split; try assumption. same_text.
  - intros (x & y & z & -> & X & Y & Z).
    replace ("-" +:+ x +:+ a +:+ y +:+ b +:+ z)
      with ("-" +:+ x +:+ a +:+ y +:+ b +:+ z +:+ EmptyString) by same_text.
    repeat (apply M_Seq); try (now apply Matches_Str); try (now apply Matches_Star).
    constructor.
Qed.

(** [a\s+b] *)
Lemma Matches_word_gap_word a b prev m rest :
  Matches (Cat [Str a; Plus is_space; Str b]) prev m rest <->
  exists ws, m = a +:+ ws +:+ b /\ gap ws = true.
Proof.
  unfold Cat, fold_right. split.
  - intros H.
    apply Matches_Seq in H as (m1 & n1 & -> & H1 & H).
    apply Matches_Seq in H as (m2 & n2 & -> & H2 & H).
    apply Matches_Seq in H as (m3 & n3 & -> & H3 & H).
    apply Matches_Str in H1 as ->. apply Matches_Plus, gap_iff in H2.
    apply Matches_Str in H3 as ->. apply Matches_Eps in H as ->.
    exists m2. split; [same_text | assumption].
  - intros (ws & -> & G). apply gap_iff in G.
    replace (a +:+ ws +:+ b) with (a +:+ ws +:+ b +:+ EmptyString) by same_text.
    repeat (apply M_Seq); try (now apply Matches_Str); try (now apply Matches_Plus).
    constructor.
Qed.

(** The first two patterns: [\brm\s+(-..a..b..|long1\s+long2)]. *)
Lemma search_rm_letters_or_long a b long1 long2 cmd :
  search (Cat [Bound; Str "rm"; Plus is_space;
               Alt (Cat [Str "-"; Star alpha; Str a; Star alpha; Str b; Star alpha])
                   (Cat [Str long1; Plus is_space; Str long2])]) cmd = true <->
  exists pre ws flags post,
    cmd = pre +:+ "rm" +:+ ws +:+ flags +:+ post
    /\ word_at (last_char None pre) = false /\ gap ws = true
    /\ ((exists x y, flags = "-" +:+ x +:+ a +:+ y +:+ b
                     /\ all_chars alpha x = true /\ all_chars alpha y = true)
        \/ (exists ws', flags = long1 +:+ ws' +:+ long2 /\ gap ws' = true)).
Proof.
  rewrite search_rm_then. split.
  - intros (pre & ws & m & post & -> & W & G & H).
    change (Cat [Alt ?A ?B]) with (Seq (Alt A B) Eps) in H.
    apply Matches_Seq in H as (m1 & n1 & -> & H1 & H). apply Matches_Eps in H as ->.
    apply Matches_Alt in H1 as [H1|H1].
    + apply Matches_dash_letters in H1 as (x & y & z & -> & X & Y & Z).
      exists pre, ws, ("-" +:+ x +:+ a +:+ y +:+ b), (z +:+ post).
      repeat split; try assumption; [same_text|]. left. now exists x, y.
    + apply Matches_word_gap_word in H1 as (ws' & -> & G').
      exists pre, ws, (long1 +:+ ws' +:+ long2), post.
      repeat split; try assumption; [same_text|]. right. now exists ws'.
  - intros (pre & ws & flags & post & -> & W & G & F).
    exists pre, ws, flags, post. repeat split; try assumption.
    change (Cat [Alt ?A ?B]) with (Seq (Alt A B) Eps).
    apply Matches_Seq. exists flags, EmptyString.
    split; [now rewrite append_nil_r|]. split; [|constructor].
    apply Matches_Alt. destruct F as [(x & y & -> & X & Y)|(ws' & -> & G')].
    + left. apply Matches_dash_letters. exists x, y, EmptyString.
      repeat split; try assumption. same_text.
    + right. apply Matches_word_gap_word. now exists ws'.
Qed.

(** The last two patterns: [\brm\s+-[rR]f] and [\brm\s+-f[rR]]. *)
Lemma search_rm_rRf cmd :
  search (Cat [Bound; Str "rm"; Plus is_space; Str "-"; Chr (one_of "rR"); Str "f"]) cmd
  = true <->
  exists pre ws flags post,
    cmd = pre +:+ "rm" +:+ ws +:+ flags +:+ post
    /\ word_at (last_char None pre) = false /\ gap ws = true
    /\ (flags = "-rf"%string \/ flags = "-Rf"%string).
Proof.
  rewrite search_rm_then. unfold Cat, fold_right. split.
  - intros (pre & ws & m & post & -> & W & G & H).
    apply Matches_Seq in H as (m1 & n1 & -> & H1 & H).
    apply Matches_Seq in H as (m2 & n2 & -> & H2 & H).
    apply Matches_Seq in H as (m3 & n3 & -> & H3 & H).
    apply Matches_Str in H1 as ->. apply Matches_Chr in H2 as (c & -> & Hc).
    apply Matches_Str in H3 as ->. apply Matches_Eps in H as ->.
    exists pre, ws, ("-" +:+ String c "f"), post.
    repeat split; try assumption.
    apply one_of_rR in Hc as [-> | ->]; [now left | now right].
  - intros (pre & ws & flags & post & -> & W & G & F).
    exists pre, ws, flags, post. repeat split; try assumption.
    assert (E : exists c, one_of "rR" c = true
                          /\ flags = "-" +:+ String c EmptyString +:+ "f" +:+ EmptyString).
    { destruct F as [-> | ->]; [exists "r"%char | exists "R"%char]; now split. }
    destruct E as (c & Hc & ->).
    repeat (apply M_Seq); try (now apply Matches_Str); [now constructor | constructor].
Qed.

Lemma search_rm_frR cmd :
  search (Cat [Bound; Str "rm"; Plus is_space; Str "-f"; Chr (one_of "rR")]) cmd
  = true <->
  exists pre ws flags post,
    cmd = pre +:+ "rm" +:+ ws +:+ flags +:+ post
    /\ word_at (last_char None pre) = false /\ gap ws = true
    /\ (flags = "-fr"%string \/ flags = "-fR"%string).
Proof.
  rewrite search_rm_then. unfold Cat, fold_right. split.
  - intros (pre & ws & m & post & -> & W & G & H).
    apply Matches_Seq in H as (m1 & n1 & -> & H1 & H).
    apply Matches_Seq in H as (m2 & n2 & -> & H2 & H).
    apply Matches_Str in H1 as ->. apply Matches_Chr in H2 as (c & -> & Hc).
    apply Matches_Eps in H as ->.
    exists pre, ws, ("-f" +:+ String c EmptyString), post.
    repeat split; try assumption.
    apply one_of_rR in Hc as [-> | ->]; [now left | now right].
  - intros (pre & ws & flags & post & -> & W & G & F).
    exists pre, ws, flags, post. repeat split; try assumption.
    assert (E : exists c, one_of "rR" c = true
                          /\ flags = "-f" +:+ String c EmptyString +:+ EmptyString).
    { destruct F as [-> | ->]; [exists "r"%char | exists "R"%char]; now split. }
    destruct E as (c & Hc & ->).
    repeat (apply M_Seq); try (now apply Matches_Str); [now constructor | constructor].
Qed.

(** The four patterns say what [rm_invoked] says. *)
Lemma rm_patterns_rm_invoked cmd :
  existsb (fun r => search r cmd) rm_patterns = true <-> rm_invoked cmd.
Proof.
  unfold rm_patterns, rm_invoked. cbn [existsb]. rewrite !orb_true_iff.
  rewrite !search_rm_letters_or_long, search_rm_rRf, search_rm_frR. split.
  - intros [H|[H|[H|[H|H]]]]; [| | | |discriminate];
      destruct H as (pre & ws & flags & post & -> & W & G & F);
      exists pre, ws, flags, post; repeat split; try assumption.
    + destruct F as [(x & y & -> & X & Y)|(ws' & -> & G')]; now constructor.
    + destruct F as [(x & y & -> & X & Y)|(ws' & -> & G')]; now constructor.
    + destruct F as [-> | ->]; [apply (flags_r_f "" ""); reflexivity | constructor].
    + destruct F as [-> | ->]; [apply (flags_f_r "" ""); reflexivity | constructor].
  - intros (pre & ws & flags & post & -> & W & G & F).
    destruct F as [x y X Y|x y X Y|ws' G'|ws' G'| |].
    + left. exists pre, ws, ("-" +:+ x +:+ "r" +:+ y +:+ "f"), post.
      repeat split; try assumption. left. now exists x, y.
    + right; left. exists pre, ws, ("-" +:+ x +:+ "f" +:+ y +:+ "r"), post.
      repeat split; try assumption. left. now exists x, y.
    + left. exists pre, ws, ("--recursive" +:+ ws' +:+ "--force"), post.
      repeat split; try assumption. right. now exists ws'.
    + right; left. exists pre, ws, ("--force" +:+ ws' +:+ "--recursive"), post.
      repeat split; try assumption. right. now exists ws'.
    + right; right; left. exists pre, ws, "-Rf"%string, post.
      repeat split; try assumption. now right.
    + right; right; right; left. exists pre, ws, "-fR"%string, post.
      repeat split; try assumption. now right.
Qed.

End RmPatterns.

(* ===================================================================== *)
(** ** The rule on [rm], exactly *)
(* ===================================================================== *)

(** A match of a sequence of patterns starts with a match of any front
    part of the sequence. *)
Lemma Matches_Cat_app rs rs' : forall prev m rest,
  Matches (Cat (rs ++ rs')) prev m rest ->
  exists m1 m2, m = m1 +:+ m2 /\ Matches (Cat rs) prev m1 (m2 +:+ rest).
Proof.
  induction rs as [|r rs IH]; intros prev m rest H.
  - exists EmptyString, m. split; [reflexivity | constructor].
  - change (Matches (Seq r (Cat (rs ++ rs'))) prev m rest) in H.
    apply Matches_Seq in H as (a & b & -> & Ha & Hb).
    apply IH in Hb as (b1 & b2 & -> & Hb).
    exists (a +:+ b1), b2. split; [now rewrite append_assoc|].
    change (Matches (Seq r (Cat rs)) prev (a +:+ b1) (b2 +:+ rest)).
    apply M_Seq; [now rewrite <- append_assoc | exact Hb].
Qed.

Lemma search_Cat_app rs rs' s :
  search (Cat (rs ++ rs')) s = true -> search (Cat rs) s = true.
Proof.
  rewrite !search_iff. intros (pre & m & post & -> & H).
  apply Matches_Cat_app in H as (m1 & m2 & -> & H).
  exists pre, m1, (m2 +:+ post). split; [now rewrite !append_assoc | exact H].
Qed.

Lemma existsb_and_const {A} (f : A -> bool) (b : bool) (l : list A) :
  existsb (fun x => f x && b) l = existsb f l && b.
Proof.
  induction l as [|x l IH]; simpl; [reflexivity|].
  rewrite IH. destruct (f x), b, (existsb f l); reflexivity.
Qed.

(** Where the check after the loop, [rm -rf] before [~], [/] or [.],
    succeeds, the loop has returned already: the third pattern matches and
    the character is one of the dangerous paths. *)
Lemma rm_rf_target_subsumed cmd :
  search rm_rf_target cmd = true ->
  existsb (fun r => search r cmd) rm_patterns = true
  /\ existsb (fun path => contains path cmd) dangerous_paths = true.
Proof.
  intros H. split.
  - unfold rm_patterns. cbn [existsb].
    rewrite (search_Cat_app
               [Bound; Str "rm"; Plus is_space; Str "-"; Chr (one_of "rR"); Str "f"]
               [Plus is_space; Chr (one_of "~/.")] cmd H).
    now rewrite !orb_true_r.
  - apply (search_needs_last (one_of "~/.")
             [Bound; Str "rm"; Plus is_space; Str "-"; Chr (one_of "rR"); Str "f";
              Plus is_space]) in H.
    apply any_char_one_of in H as (x & Hx & Hc).
    apply existsb_exists. exists (String x EmptyString). split; [|exact Hc].
    simpl in Hx. rewrite orb_false_r in Hx.
    apply orb_true_iff in Hx as [Hx|Hx]; [|apply orb_true_iff in Hx as [Hx|Hx]];
      apply Ascii.eqb_eq in Hx; subst x; simpl; tauto.
Qed.

(** X1. The check that follows the loop of [is_dangerous_rm_command] never
    decides: on every text the function returns what the loop alone
    returns, that is, whether one of the four patterns matches and one of
    the dangerous paths occurs. *)
Theorem rm_check_after_loop_is_redundant (cmd : string) :
  dangerous_rm_text cmd
  = existsb (fun r => search r cmd) rm_patterns
    && existsb (fun path => contains path cmd) dangerous_paths.
Proof.
  unfold dangerous_rm_text. rewrite existsb_and_const.
  destruct (search rm_rf_target cmd) eqn:E; [|apply orb_false_r].
  destruct (rm_rf_target_subsumed cmd E) as [-> ->]. reflexivity.
Qed.

(** X2. [is_dangerous_rm_command] returns [True] exactly for the commands
    whose normal form runs [rm], at the start of a word, with flags that
    join recursive and force ([rm_flags]), and holds one of the dangerous
    paths somewhere. *)
Theorem rm_rule_exactly (c : string) :
  is_dangerous_rm_command (JStr c) = Ok true <->
  rm_invoked (join " " (split c))
  /\ exists path, In path dangerous_paths /\ contains path (join " " (split c)) = true.
Proof.
  change (is_dangerous_rm_command (JStr c))
    with (Ok (dangerous_rm_text (join " " (split c)))).
  unfold dangerous_rm_text. rewrite existsb_and_const.
  rewrite <- rm_patterns_rm_invoked, <- existsb_exists. split.
  - intros H. injection H as H. apply orb_true_iff in H as [H|H].
    + now apply andb_true_iff in H.
    + now apply rm_rf_target_subsumed.
  - intros [H1 H2]. now rewrite H1, H2.
Qed.

(* ===================================================================== *)
(** ** Splitting and joining *)
(* ===================================================================== *)

Lemma all_chars_app (p : ascii -> bool) (a b : string) :
  all_chars p (a +:+ b) = all_chars p a && all_chars p b.
Proof. induction a as [|c a IH]; simpl; [reflexivity | now rewrite IH, andb_assoc]. Qed.

(** The words [split] returns are not empty and hold no white space. *)
Lemma split_from_words s : forall cur,
  no_space cur = true ->
  Forall (fun w => w <> EmptyString /\ no_space w = true) (split_from cur s).
Proof.
  induction s as [|c s IH]; intros cur Hcur; simpl.
  - destruct cur; simpl; [constructor|]. now repeat constructor.
  - destruct (is_space c) eqn:Hc.
    + destruct cur; simpl; [now apply IH|].
      constructor; [now split | now apply IH].
    + apply IH. unfold snoc, no_space. rewrite all_chars_app. simpl.
      now rewrite Hc, andb_true_r.
Qed.

(** Joining such words with a space and splitting gives the words back. *)
Lemma split_join words :
  Forall (fun w => w <> EmptyString /\ no_space w = true) words ->
  split (join " " words) = words.
Proof.
  induction words as [|w words IH]; intros H; [reflexivity|].
  inversion H as [|? ? [Nw Hw] Hrest]; subst. specialize (IH Hrest).
  destruct words as [|w' words].
  - simpl. unfold split. rewrite <- (append_nil_r w) at 1.
    rewrite (split_from_word w EmptyString EmptyString Hw). simpl.
    now apply flush_nonempty.
  - rewrite join_cons2. unfold split.
    rewrite (split_from_word w EmptyString _ Hw).
    change (EmptyString +:+ w) with w.
    change (" " +:+ join " " (w' :: words))
      with (String " " (join " " (w' :: words))).
    simpl split_from. rewrite flush_nonempty by exact Nw.
    f_equal. exact IH.
Qed.

(** X3. Normalising a command twice is normalising it once, so the rule
    on [rm] gives a command and its normal form the same verdict. *)
Theorem rm_rule_on_normal_form (c : string) :
  join " " (split (join " " (split c))) = join " " (split c)
  /\ is_dangerous_rm_command (JStr (join " " (split c)))
     = is_dangerous_rm_command (JStr c).
Proof.
  assert (E : split (join " " (split c)) = split c).
  { apply split_join. now apply split_from_words. }
  split; [now rewrite E|].
  unfold is_dangerous_rm_command, str_split, mbind, res_bind. now rewrite E.
Qed.

(* ===================================================================== *)
(** ** What the guard lets through *)
(* ===================================================================== *)

(** The rule checks on a shell record whose [command] and [file_path],
    present or not, are strings (the empty string when absent). *)
Lemma check_rules_bash_default d c p :
  default (JStr "") (dict_get "file_path" d) = JStr p ->
  default (JStr "") (dict_get "command" d) = JStr c ->
  check_rules (JStr "Bash") (JObj d)
  = Ok (if (if contains ".env" p
            then negb (contains ".env.sample" p || contains ".env.example" p)
            else env_command_fires c)
        then BLOCK env_reason
        else if dangerous_rm_text (join " " (split c))
             then BLOCK (rm_reason c)
             else ALLOW).
Proof.
  intros Hp Hc. unfold check_rules.
  rewrite (env_access_strings "Bash" d c p); [|simpl; tauto|exact Hp|exact Hc].
  unfold mbind at 1, res_bind at 1. cbn [String.eqb Ascii.eqb Bool.eqb andb].
  match goal with |- (if ?b then _ else _) = _ => destruct b end; [reflexivity|].
  cbn [eq_str String.eqb Ascii.eqb Bool.eqb]. unfold get. rewrite Hc.
  unfold is_dangerous_rm_command, mbind, res_bind, mret, res_ret.
  cbn [str_split format].
  destruct (dangerous_rm_text (join " " (split c))); reflexivity.
Qed.

(** The rule on [rm] fires only on a text that holds [rm]. *)
Lemma dangerous_needs_rm cmd :
  dangerous_rm_text cmd = true -> contains "rm" cmd = true.
Proof.
  intros H.
  assert (R : existsb (fun r => search r cmd) rm_patterns = true).
  { unfold dangerous_rm_text in H. rewrite existsb_and_const in H.
    apply orb_true_iff in H as [H|H];
      [now apply andb_true_iff in H | now apply rm_rf_target_subsumed]. }
  apply rm_patterns_rm_invoked in R as (pre & ws & flags & post & -> & _).
  apply contains_iff. now exists pre, (ws +:+ flags +:+ post).
Qed.

(** X4. The guard never blocks a shell command that does not hold [.env]
    and holds no [rm], or none of the dangerous paths: it is allowed, and
    so is a shell record without a command. The record's [file_path], if
    it has one, does not hold [.env]. *)
Theorem plain_shell_command_allowed (d : list (string * json)) (c p : string) :
  dict_get "tool" d = Some (JStr "Bash") ->
  default (JStr "") (dict_get "command" d) = JStr c ->
  default (JStr "") (dict_get "file_path" d) = JStr p ->
  contains ".env" p = false ->
  contains ".env" c = false ->
  contains "rm" c = false
  \/ (forall path, In path dangerous_paths -> contains path c = false) ->
  evaluate (JObj d) = Ok ALLOW.
Proof.
  intros Htool Hc Hp Np Nc H.
  rewrite (evaluate_tool d "Bash" Htool), (check_rules_bash_default d c p Hp Hc), Np.
  unfold env_command_fires. rewrite Nc. cbn [andb].
  assert (D : dangerous_rm_text (join " " (split c)) = false).
  { destruct H as [H|H]; [|now apply no_token_not_dangerous].
    apply not_true_is_false. intros D. apply dangerous_needs_rm in D.
    apply contains_normalised in D; [|reflexivity]. now rewrite H in D. }
  now rewrite D.
Qed.

Lemma plain_shell_command_allowed_witness :
  evaluate (bash "s1" "git status && ls -la /tmp/*.log") = Ok ALLOW
  /\ evaluate (bash "s1" "rm -rf node_modules dist") = Ok ALLOW
  /\ evaluate (record "s1" "Bash" []) = Ok ALLOW.
Proof.
  split; [|split].
  - apply (plain_shell_command_allowed
             [("sessionId"%string, JStr "s1"); ("tool"%string, JStr "Bash");
              ("command"%string, JStr "git status && ls -la /tmp/*.log")]
             "git status && ls -la /tmp/*.log" ""); try reflexivity. now left.
  - apply (plain_shell_command_allowed
             [("sessionId"%string, JStr "s1"); ("tool"%string, JStr "Bash");
              ("command"%string, JStr "rm -rf node_modules dist")]
             "rm -rf node_modules dist" ""); try reflexivity.
    right. intros path Hin. simpl in Hin.
    repeat (destruct Hin as [<-|Hin]; [reflexivity|]). destruct Hin.
  - apply (plain_shell_command_allowed
             [("sessionId"%string, JStr "s1"); ("tool"%string, JStr "Bash")] "" "");
      try reflexivity. now left.
Defined.

(** X5. For the four file tools only [file_path] counts: the invocation
    is allowed exactly when the path, a string or absent, does not hold
    [.env] or holds [.env.sample] or [.env.example] somewhere, and is
    blocked for [.env] otherwise, whatever else the record holds, a
    [command] of [rm -rf /] included. *)
Theorem file_tool_decision (d : list (string * json)) (tool p : string) :
  In tool env_tools -> tool <> "Bash"%string ->
  dict_get "tool" d = Some (JStr tool) ->
  default (JStr "") (dict_get "file_path" d) = JStr p ->
  (evaluate (JObj d) = Ok ALLOW <->
   contains ".env" p = false
   \/ contains ".env.sample" p = true \/ contains ".env.example" p = true)
  /\ (evaluate (JObj d) = Ok ALLOW \/ evaluate (JObj d) = Ok (BLOCK env_reason)).
Proof.
  intros Hin Hn Htool Hp.
  rewrite (evaluate_tool d tool Htool), (check_rules_file tool d p Hin Hn Hp).
  destruct (contains ".env" p), (contains ".env.sample" p), (contains ".env.example" p);
    simpl; split; try (now left); try (now right);
    split; try reflexivity; try tauto; try discriminate;
    intros [H|[H|H]]; discriminate.
Qed.

Lemma file_tool_decision_witness :
  (evaluate (record "s1" "Write" [("file_path"%string, JStr "backup/.env.sample.old");
                                  ("command"%string, JStr "rm -rf /")]) = Ok ALLOW <->
   contains ".env" "backup/.env.sample.old" = false
   \/ contains ".env.sample" "backup/.env.sample.old" = true
   \/ contains ".env.example" "backup/.env.sample.old" = true)
  /\ (evaluate (record "s1" "Read" []) = Ok ALLOW <->
      contains ".env" "" = false
      \/ contains ".env.sample" "" = true \/ contains ".env.example" "" = true).
Proof.
  split.
  - apply (file_tool_decision
             [("sessionId"%string, JStr "s1"); ("tool"%string, JStr "Write");
              ("file_path"%string, JStr "backup/.env.sample.old");
              ("command"%string, JStr "rm -rf /")]
             "Write" "backup/.env.sample.old");
      try reflexivity; [simpl; tauto | discriminate].
  - apply (file_tool_decision
             [("sessionId"%string, JStr "s1"); ("tool"%string, JStr "Read")]
             "Read" ""); try reflexivity; [simpl; tauto | discriminate].
Defined.

(** X6. The guard looks at five tool names only, spelled exactly: a
    record whose [tool] is none of them, is not a string, or is missing,
    is allowed whatever its parameters are. *)
Theorem other_tools_allowed (d : list (string * json)) :
  (forall name, In name env_tools ->
                default (JStr "") (dict_get "tool" d) <> JStr name) ->
  evaluate (JObj d) = Ok ALLOW.
Proof.
  intros H. unfold evaluate, get. cbn [mbind res_bind].
  set (tool := default (JStr "") (dict_get "tool" d)) in *.
  assert (E : existsb (eq_str tool) env_tools = false).
  { apply not_true_is_false. intros E. apply existsb_exists in E as (name & Hin & E).
    destruct tool; try discriminate. simpl in E. apply String.eqb_eq in E as ->.
    now elim (H name Hin). }
  assert (B : eq_str tool "Bash" = false).
  { apply not_true_is_false. intros B.
    destruct tool; try discriminate. simpl in B. apply String.eqb_eq in B as ->.
    elim (H "Bash"%string); [simpl; tauto | reflexivity]. }
  unfold check_rules, is_env_file_access. rewrite E. cbn [negb].
  unfold mret, res_ret, mbind, res_bind. now rewrite B.
Qed.

Lemma other_tools_allowed_witness :
  evaluate (record "s1" "Grep" [("file_path"%string, JStr ".env")]) = Ok ALLOW
  /\ evaluate (record "s1" "bash" [("command"%string, JStr "rm -rf /")]) = Ok ALLOW
  /\ evaluate (JObj [("command"%string, JStr "rm -rf /")]) = Ok ALLOW.
Proof.
  assert (T : forall v name, In name env_tools ->
                             (forall n, In n env_tools -> String.eqb v n = false) ->
                             JStr v <> JStr name).
  { intros v name Hin Hv E. injection E as ->.
    specialize (Hv name Hin). now rewrite String.eqb_refl in Hv. }
  split; [|split]; apply other_tools_allowed; intros name Hin; simpl default;
    apply (T _ name Hin); intros n Hn; simpl in Hn;
    repeat (destruct Hn as [<-|Hn]; [reflexivity|]); destruct Hn.
Defined.

(* ===================================================================== *)
(** ** When the guard ends without a decision *)
(* ===================================================================== *)

(** What [main] of the guard does with a record, step by step. *)
Lemma guard_main_on_record d w :
  PreToolUse.main (Text (JObj d)) w
  = match log_tool_call (JObj d) w with
    | (Ok _, w') => (outcome_of (evaluate (JObj d)), w')
    | (Raise e, w') => (Raise e, w')
    end.
Proof.
  unfold PreToolUse.main, evaluate. cbn [json_load get lift].
  unfold mbind at 1, io_bind at 1, lift at 1. cbv beta iota.
  unfold mbind at 1, io_bind at 1.
  destruct (log_tool_call (JObj d) w) as [[[]|e] w']; [|reflexivity].
  unfold mbind, io_bind, res_bind, lift, mret, io_ret, outcome_of.
  destruct (check_rules _ _); reflexivity.
Qed.

(** The rule on [.env] for a shell record whose [file_path] does not
    hold [.env]: the checks on the command, whatever the command is. *)
Lemma env_access_bash_command d v p :
  default (JStr "") (dict_get "file_path" d) = JStr p ->
  contains ".env" p = false ->
  dict_get "command" d = Some v ->
  is_env_file_access (JStr "Bash") (JObj d)
  = (mentioned ← str_in ".env" v;
     if (mentioned : bool) then
       template ← names_template v;
       if (template : bool) then mret false else any_search env_patterns v
     else mret false).
Proof.
  intros Hp Np Hc. unfold is_env_file_access.
  change (existsb (eq_str (JStr "Bash")) env_tools) with true. cbn [negb].
  unfold get. rewrite Hp, Hc.
  unfold mbind at 1, res_bind at 1. rewrite named_in_path.
  unfold mbind at 1, res_bind at 1. rewrite Np. reflexivity.
Qed.

(** X7. A shell record whose [command] is there and is not a string gets
    no decision: the rule checks raise [TypeError] or [AttributeError],
    and the guard ends with status 1, whatever the state of the logs. The
    record's [file_path], if it has one, does not hold [.env]. *)
Theorem command_not_a_string_raises (d : list (string * json)) (v : json) (p : string)
        (w : world) :
  dict_get "tool" d = Some (JStr "Bash") ->
  dict_get "command" d = Some v ->
  (forall c, v <> JStr c) ->
  default (JStr "") (dict_get "file_path" d) = JStr p ->
  contains ".env" p = false ->
  (evaluate (JObj d) = Raise TypeError \/ evaluate (JObj d) = Raise AttributeError)
  /\ exit_status (fst (PreToolUse.main (Text (JObj d)) w)) = 1.
Proof.
  intros Htool Hcmd Hv Hp Np.
  assert (E : evaluate (JObj d) = Raise TypeError
              \/ evaluate (JObj d) = Raise AttributeError).
  { rewrite (evaluate_tool d "Bash" Htool). unfold check_rules.
    rewrite (env_access_bash_command d v p Hp Np Hcmd).
    cbn [eq_str String.eqb Ascii.eqb Bool.eqb]. unfold get. rewrite Hcmd.
    cbn [default from_option id].
    unfold names_template, is_dangerous_rm_command, mbind, res_bind, mret, res_ret.
    destruct v as [|b|n|r|c|items|fields]; try (now left); [now elim (Hv c)| |];
      cbn [str_in str_split any_search env_patterns re_search].
    - destruct (existsb (fun x => eq_str x ".env") items); [|now right].
      destruct (existsb (fun x => eq_str x ".env.sample") items); [now right|].
      destruct (existsb (fun x => eq_str x ".env.example") items);
        [now right | now left].
    - destruct (existsb (fun kv => String.eqb (fst kv) ".env") fields); [|now right].
      destruct (existsb (fun kv => String.eqb (fst kv) ".env.sample") fields);
        [now right|].
      destruct (existsb (fun kv => String.eqb (fst kv) ".env.example") fields);
        [now right | now left]. }
  split; [exact E|].
  rewrite guard_main_on_record.
  destruct (log_tool_call (JObj d) w) as [[[]|e] w']; [|reflexivity].
  destruct E as [-> | ->]; reflexivity.
Qed.

Lemma command_not_a_string_raises_witness :
  (evaluate (record "s1" "Bash" [("command"%string, JArr [JStr "rm"; JStr "-rf"; JStr "/"])])
   = Raise TypeError
   \/ evaluate (record "s1" "Bash" [("command"%string, JArr [JStr "rm"; JStr "-rf"; JStr "/"])])
      = Raise AttributeError)
  /\ exit_status
       (fst (PreToolUse.main
               (Text (record "s1" "Bash"
                        [("command"%string, JArr [JStr "rm"; JStr "-rf"; JStr "/"])]))
               empty_world)) = 1.
Proof.
  apply (command_not_a_string_raises
           [("sessionId"%string, JStr "s1"); ("tool"%string, JStr "Bash");
            ("command"%string, JArr [JStr "rm"; JStr "-rf"; JStr "/"])]
           (JArr [JStr "rm"; JStr "-rf"; JStr "/"]) "" empty_world);
    try reflexivity. intros c H. discriminate H.
Defined.

(** X8. A payload that parses to something other than an object (a list,
    a string, a number, [true], [false] or [null]) gets no decision and
    no log entry: both hooks raise [AttributeError] at their first
    [data.get], leave every file as it was and end with status 1. *)
Theorem payload_not_an_object_raises (v : json) (w : world) :
  (forall d, v <> JObj d) ->
  PreToolUse.main (Text v) w = (Raise AttributeError, w)
  /\ PostToolUse.main (Text v) w = (Raise AttributeError, w).
Proof.
  intros H. destruct v as [| | | | | |d]; try (split; reflexivity). now elim (H d).
Qed.

Lemma payload_not_an_object_raises_witness :
  PreToolUse.main (Text (JStr "rm -rf /")) empty_world = (Raise AttributeError, empty_world)
  /\ PostToolUse.main (Text (JStr "rm -rf /")) empty_world
     = (Raise AttributeError, empty_world).
Proof.
  apply payload_not_an_object_raises. intros d H. discriminate H.
Defined.

(** X9. When the logs directory is missing and cannot be made, neither
    hook gets past [mkdir]: on every record both raise [OSError], which
    nothing catches, write nothing and end with status 1; the guard decides
    nothing, whatever the record asks for. *)
Theorem no_logs_directory_raises (d : list (string * json)) (w : world) :
  logs_dir_ok w = false ->
  PreToolUse.main (Text (JObj d)) w = (Raise OSError, w)
  /\ PostToolUse.main (Text (JObj d)) w = (Raise OSError, w).
Proof.
  intros H.
  assert (L : forall stage, append_to_log stage (JObj d) w = (Raise OSError, w)).
  { intros stage. now rewrite append_to_log_table, H. }
  split.
  - rewrite guard_main_on_record. unfold log_tool_call. now rewrite L.
  - unfold PostToolUse.main, PostToolUse.log_tool_execution. cbn [json_load].
    unfold mbind, io_bind. now rewrite L.
Qed.

Lemma no_logs_directory_raises_witness :
  PreToolUse.main (Text (bash "s1" "rm -rf /")) no_logs_dir = (Raise OSError, no_logs_dir)
  /\ PostToolUse.main (Text (bash "s1" "rm -rf /")) no_logs_dir
     = (Raise OSError, no_logs_dir).
Proof.
  exact (no_logs_directory_raises
           [("sessionId"%string, JStr "s1"); ("tool"%string, JStr "Bash");
            ("command"%string, JStr "rm -rf /")]
           no_logs_dir eq_refl).
Defined.

(* ===================================================================== *)
(** ** The decision and the log *)
(* ===================================================================== *)

(** X10. A write that fails does not change the decision. Whenever the
    recorder returns, the guard ends as the rule checks say. When the log
    cannot be opened for writing, it ends so with every file as it was
    (and the logs directory there). When the write breaks after the file
    was opened, it ends so with the log cut short: what the log held is
    gone, and the next call will start it afresh. *)
Theorem decision_survives_failed_write (d : list (string * json)) (w : world) :
  recorder_returns w (log_file "pre_tool_use" (session_of d)) = true ->
  (exists w', PreToolUse.main (Text (JObj d)) w = (outcome_of (evaluate (JObj d)), w'))
  /\ (unwritable w (log_file "pre_tool_use" (session_of d)) = true ->
      PreToolUse.main (Text (JObj d)) w = (outcome_of (evaluate (JObj d)), made w))
  /\ (breaks_off w (log_file "pre_tool_use" (session_of d)) = true ->
      PreToolUse.main (Text (JObj d)) w
      = (outcome_of (evaluate (JObj d)),
         set_file w (log_file "pre_tool_use" (session_of d))
           (cut_off w (log_file "pre_tool_use" (session_of d)) (JObj d)))).
Proof.
  intros L. split; [|split].
  - destruct (append_to_log_returns "pre_tool_use" d w L) as [w' Hlog].
    exists w'. rewrite guard_main_on_record. unfold log_tool_call. now rewrite Hlog.
  - intros U. rewrite guard_main_on_record. unfold log_tool_call.
    now rewrite (append_to_log_refused "pre_tool_use" d w L U).
  - intros B. rewrite guard_main_on_record. unfold log_tool_call.
    now rewrite (append_to_log_cut "pre_tool_use" d w L B).
Qed.

Lemma decision_survives_failed_write_witness :
  PreToolUse.main (Text (bash "s1" "rm -rf /")) read_only_logs
  = (Ok (Exit 2 (rm_reason "rm -rf /")), read_only_logs)
  /\ PreToolUse.main (Text (bash "s2" "ls")) read_only_logs
     = (Ok (Exit 0 []), read_only_logs)
  /\ PreToolUse.main (Text (bash "s1" "rm -rf /")) full_disk
     = (Ok (Exit 2 (rm_reason "rm -rf /")),
        set_file full_disk "pre_tool_use_s1.json"
          (File (CutShort (JArr [bash "s1" "rm -rf /"])) true true)).
Proof.
  split; [|split].
  - exact (proj1 (proj2 (decision_survives_failed_write
                           [("sessionId"%string, JStr "s1"); ("tool"%string, JStr "Bash");
                            ("command"%string, JStr "rm -rf /")] read_only_logs eq_refl))
             eq_refl).
  - exact (proj1 (proj2 (decision_survives_failed_write
                           [("sessionId"%string, JStr "s2"); ("tool"%string, JStr "Bash");
                            ("command"%string, JStr "ls")] read_only_logs eq_refl))
             eq_refl).
  - exact (proj2 (proj2 (decision_survives_failed_write
                           [("sessionId"%string, JStr "s1"); ("tool"%string, JStr "Bash");
                            ("command"%string, JStr "rm -rf /")] full_disk eq_refl))
             eq_refl).
Defined.

(** X11. The status of the guard can be trusted: whenever it ends a
    record with a status other than 1, the recorder has returned, the rule
    checks have returned a decision, and the status and the lines printed
    are those of the decision, 0 with nothing printed for ALLOW and 2 with
    the reason for BLOCK. *)
Theorem guard_status_is_the_decision (d : list (string * json)) (w : world) :
  exit_status (fst (PreToolUse.main (Text (JObj d)) w)) <> 1 ->
  exists w' decision,
    log_tool_call (JObj d) w = (Ok tt, w')
    /\ evaluate (JObj d) = Ok decision
    /\ PreToolUse.main (Text (JObj d)) w
       = (Ok (match decision with
              | ALLOW => Exit 0 []
              | BLOCK reason => Exit 2 reason
              end), w').
Proof.
  rewrite guard_main_on_record.
  destruct (log_tool_call (JObj d) w) as [[[]|e] w']; simpl;
    [|intros H; now elim H].
  destruct (evaluate (JObj d)) as [dec|e]; simpl; [|intros H; now elim H].
  intros _. exists w', dec. repeat split.
Qed.

Lemma guard_status_is_the_decision_witness :
  exists w' decision,
    log_tool_call (bash "s1" "cat .env") empty_world = (Ok tt, w')
    /\ evaluate (bash "s1" "cat .env") = Ok decision
    /\ PreToolUse.main (Text (bash "s1" "cat .env")) empty_world
       = (Ok (match decision with
              | ALLOW => Exit 0 []
              | BLOCK reason => Exit 2 reason
              end), w').
Proof.
  apply (guard_status_is_the_decision
           [("sessionId"%string, JStr "s1"); ("tool"%string, JStr "Bash");
            ("command"%string, JStr "cat .env")] empty_world).
  vm_compute. discriminate.
Defined.

(* ===================================================================== *)
(** ** What the recorder touches *)
(* ===================================================================== *)

(** What the recorder read, when it is a list, is the list [previous]
    names. *)
Lemma loaded_list w name records :
  loaded w name = Ok (JArr records) -> records = previous w name.
Proof.
  unfold loaded, previous.
  destruct (files w !! name) as [[body r wr]|].
  - destruct r; [|destruct body as [[]| | | | |]; congruence].
    destruct body as [[| | | | |items|]|raw|v| | |]; cbn [json_load]; congruence.
  - destruct (has_nul name); [congruence|]. destruct (vacant w name); congruence.
Qed.

(** One call of the recorder, whatever the data and the state of the
    files: it leaves the world as it was; or as [mkdir] left it; or with
    the log of the record's session written, in full or cut short. *)
Lemma append_to_log_world stage data w :
  snd (append_to_log stage data w) = w
  \/ snd (append_to_log stage data w) = made w
  \/ exists sid,
      get data "sessionId" (JStr "unknown") = Ok sid
      /\ logs_dir_ok w = true
      /\ (snd (append_to_log stage data w)
          = set_file w (log_file stage sid) (appended w (log_file stage sid) data)
          \/ snd (append_to_log stage data w)
             = set_file w (log_file stage sid) (cut_off w (log_file stage sid) data)).
Proof.
  destruct data as [| | | | | |d]; try (now left).
  rewrite append_to_log_table.
  destruct (logs_dir_ok w) eqn:Hdir; [|now left].
  destruct (loaded w (log_file stage (session_of d))) as [[| | | | |records|]|e] eqn:L;
    try (now right; left).
  apply loaded_list in L. subst records. rewrite write_json_made.
  destruct (files w !! log_file stage (session_of d)) as [[body r wr]|] eqn:E.
  - cbn [writable readable]. destruct wr; [|now right; left].
    right; right. exists (session_of d). split; [reflexivity|]. split; [reflexivity|].
    unfold appended, cut_off. rewrite E. cbn [readable].
    destruct (short_write w _); [now right | now left].
  - destruct (has_nul _); [now right; left|].
    destruct (vacant w _); try (now right; left).
    right; right. exists (session_of d). split; [reflexivity|]. split; [reflexivity|].
    unfold appended, cut_off. rewrite E.
    destruct (short_write w _); [now right | now left].
Qed.

(** So a call changes no file but that log. *)
Lemma append_to_log_frame stage data w name :
  (forall sid, get data "sessionId" (JStr "unknown") = Ok sid ->
               name <> log_file stage sid) ->
  files (snd (append_to_log stage data w)) !! name = files w !! name.
Proof.
  intros H.
  destruct (append_to_log_world stage data w) as [->|[->|(sid & Hs & _ & [->| ->])]];
    [reflexivity | now rewrite files_made | |];
    unfold set_file, files at 1; simpl; apply lookup_insert_ne; intros E;
    now elim (H sid Hs).
Qed.

Lemma there_made w : logs_dir_ok w = true -> there (made w) = true.
Proof. destruct w as [[[|]|entries] v s]; (reflexivity || discriminate). Qed.

(** X12. One call of the recorder changes at most one file, the log of
    the record's session for the stage, and what it leaves there is a
    file that can be written and holds what the recorder found in the
    log followed by the record: the whole list, or a beginning of its
    text when the write broke. On a record the call makes the logs
    directory when it is missing and can be made; on data that is no
    record it changes nothing. This holds for every state of the files,
    whether the call returns or raises. *)
Theorem recorder_writes_one_log (stage : string) (data : json) (w : world)
        (name : string) :
  (files (snd (append_to_log stage data w)) !! name = files w !! name
   \/ exists sid r,
       get data "sessionId" (JStr "unknown") = Ok sid
       /\ name = log_file stage sid
       /\ (files (snd (append_to_log stage data w)) !! name
           = Some (File (Text (JArr (previous w name ++ [data]))) r true)
           \/ files (snd (append_to_log stage data w)) !! name
              = Some (File (CutShort (JArr (previous w name ++ [data]))) r true)))
  /\ (forall d, data = JObj d ->
                there (snd (append_to_log stage data w)) = logs_dir_ok w)
  /\ ((forall d, data <> JObj d) -> snd (append_to_log stage data w) = w).
Proof.
  split; [|split].
  - destruct (append_to_log_world stage data w) as [->|[->|(sid & Hs & _ & H)]];
      [now left | left; now rewrite files_made |].
    destruct (decide (name = log_file stage sid)) as [->|Hne].
    + right. exists sid. eexists. split; [exact Hs|]. split; [reflexivity|].
      destruct H as [-> | ->]; rewrite files_set_file; [now left | now right].
    + left. destruct H as [-> | ->]; unfold set_file, files at 1; simpl;
        apply lookup_insert_ne; congruence.
  - intros d ->. rewrite append_to_log_table.
    destruct (logs_dir_ok w) eqn:Hdir.
    + destruct (loaded w _) as [[| | | | |records|]|e];
        try (now apply there_made).
      rewrite write_json_made.
      destruct (files w !! _) as [[body r wr]|].
      * cbn [writable]. destruct wr; [|now apply there_made].
        now destruct (short_write w _).
      * destruct (has_nul _); [now apply there_made|].
        destruct (vacant w _); try (now apply there_made).
        now destruct (short_write w _).
    + destruct w as [[[|]|entries] v s]; (reflexivity || discriminate).
  - intros H. destruct data as [| | | | | |d]; try reflexivity. now elim (H d).
Qed.

Lemma recorder_writes_one_log_witness :
  files (snd (log_tool_call (bash "s1" "ls") new_project)) !! "pre_tool_use_s1.json"
  = Some (File (Text (JArr [bash "s1" "ls"])) true true)
  /\ there (snd (log_tool_call (bash "s1" "ls") new_project)) = true
  /\ snd (log_tool_call (JStr "ls") new_project) = new_project.
Proof.
  destruct (recorder_writes_one_log "pre_tool_use" (bash "s1" "ls") new_project
              "pre_tool_use_s1.json") as (_ & H2 & _).
  destruct (recorder_writes_one_log "pre_tool_use" (JStr "ls") new_project
              "pre_tool_use_s1.json") as (_ & _ & H3).
  split; [reflexivity|]. split.
  - exact (H2 _ eq_refl).
  - apply H3. intros d H. discriminate H.
Defined.

Lemma log_file_stages sid sid' : log_file "pre_tool_use" sid <> log_file "post_tool_use" sid'.
Proof. unfold log_file. simpl. intros H. discriminate H. Qed.

(** X13. The two stages keep their logs apart: the guard's recorder never
    changes a [post_tool_use] log and the logger's never changes a
    [pre_tool_use] log, whatever the data and the sessions. *)
Theorem stages_keep_apart (data : json) (w : world) (sid : json) :
  files (snd (log_tool_call data w)) !! log_file "post_tool_use" sid
  = files w !! log_file "post_tool_use" sid
  /\ files (snd (PostToolUse.log_tool_execution data w)) !! log_file "pre_tool_use" sid
     = files w !! log_file "pre_tool_use" sid.
Proof.
  split; apply append_to_log_frame; intros sid' _ E.
  - now apply (log_file_stages sid' sid).
  - now apply (log_file_stages sid sid').
Qed.

Lemma length_append (a b : string) :
  String.length (a +:+ b) = (String.length a + String.length b)%nat.
Proof. induction a as [|c a IH]; simpl; [reflexivity | now rewrite IH]. Qed.

Lemma append_inv_tail s : forall a b, a +:+ s = b +:+ s -> a = b.
Proof.
  induction a as [|x a IH]; intros [|y b] H; [reflexivity| | |].
  - apply (f_equal String.length) in H. simpl in H. rewrite length_append in H. lia.
  - apply (f_equal String.length) in H. simpl in H. rewrite length_append in H. lia.
  - simpl in H. injection H as -> H. f_equal. now apply IH.
Qed.

(** Sessions named by different strings have different logs. *)
Lemma log_file_sessions stage a b :
  log_file stage (JStr a) = log_file stage (JStr b) -> a = b.
Proof.
  unfold log_file. simpl format. intros H.
  apply String.app_inj, String.app_inj in H.
  now apply append_inv_tail in H.
Qed.

(** X14. Sessions named by different strings never share a log: recording
    for one session, at either stage, leaves the log of every other
    session as it was. *)
Theorem sessions_keep_apart (stage : string) (d : list (string * json)) (w : world)
        (mine other : string) :
  session_of d = JStr mine -> other <> mine ->
  files (snd (append_to_log stage (JObj d) w)) !! log_file stage (JStr other)
  = files w !! log_file stage (JStr other).
Proof.
  intros Hs Hne. apply append_to_log_frame. intros sid Hsid E.
  simpl in Hsid. injection Hsid as <-. unfold session_of in Hs. rewrite Hs in E.
  now apply log_file_sessions in E.
Qed.

Lemma sessions_keep_apart_witness :
  files (snd (log_tool_call (bash "s2" "ls") read_only_logs)) !! "pre_tool_use_s1.json"
  = files read_only_logs !! "pre_tool_use_s1.json".
Proof.
  apply (sessions_keep_apart "pre_tool_use"
           [("sessionId"%string, JStr "s2"); ("tool"%string, JStr "Bash");
            ("command"%string, JStr "ls")] read_only_logs "s2" "s1");
    [reflexivity | discriminate].
Defined.

(** X15. A log that cannot be read, or that reads as a text [json.load]
    rejects with [JSONDecodeError] (no JSON, or a log cut short), is
    started afresh when it can be written: the call returns and the file
    holds the new record alone; what the file held is lost. A log on
    which [json.load] raises something else (bytes that are not UTF-8,
    nesting beyond the recursion limit, an integer beyond the digit
    limit) is not: the exception escapes [except (json.JSONDecodeError,
    IOError)], the recorder raises and the log stays as it is. *)
Theorem unusable_log_is_replaced (stage : string) (d : list (string * json)) (w : world)
        (body : document) (r wr : bool) :
  files w !! log_file stage (session_of d) = Some (File body r wr) ->
  (wr = true -> short_write w (log_file stage (session_of d)) = false ->
   r = false \/ (exists raw, body = Garbled raw) \/ (exists v, body = CutShort v) ->
   append_to_log stage (JObj d) w
   = (Ok tt, set_file w (log_file stage (session_of d))
               (File (Text (JArr [JObj d])) r true)))
  /\ (r = true ->
      (body = Undecodable ->
       append_to_log stage (JObj d) w = (Raise UnicodeDecodeError, w))
      /\ (body = TooDeep ->
          append_to_log stage (JObj d) w = (Raise RecursionError, w))
      /\ (body = HugeNumber ->
          append_to_log stage (JObj d) w = (Raise ValueError, w))).
Proof.
  intros Hfile.
  assert (Hdir : logs_dir_ok w = true).
  { unfold logs_dir_ok. unfold files in Hfile. destruct (directory w); [|reflexivity].
    rewrite lookup_empty in Hfile. discriminate Hfile. }
  split.
  - intros -> Hshort H. rewrite append_to_log_ok.
    + unfold appended, previous. rewrite Hfile.
      destruct H as [->|[[raw ->]|[v ->]]];
        [now destruct body as [[]| | | | |] | now destruct r | now destruct r].
    + unfold appendable. rewrite Hdir, Hfile, Hshort.
      destruct H as [->|[[raw ->]|[v ->]]]; [reflexivity | now destruct r | now destruct r].
  - intros ->. repeat split; intros ->;
      rewrite append_to_log_table, Hdir; unfold loaded; rewrite Hfile; cbn [json_load];
      now rewrite (made_there _ _ _ Hfile).
Qed.

Lemma unusable_log_is_replaced_witness :
  log_tool_call (bash "s1" "ls")
    (set_file empty_world "pre_tool_use_s1.json"
       (File (CutShort (JArr [JNull; JNull])) true true))
  = (Ok tt, set_file
              (set_file empty_world "pre_tool_use_s1.json"
                 (File (CutShort (JArr [JNull; JNull])) true true))
              "pre_tool_use_s1.json" (File (Text (JArr [bash "s1" "ls"])) true true))
  /\ log_tool_call (bash "s1" "ls")
       (set_file empty_world "pre_tool_use_s1.json" (File Undecodable true true))
     = (Raise UnicodeDecodeError,
        set_file empty_world "pre_tool_use_s1.json" (File Undecodable true true)).
Proof.
  split.
  - apply (proj1 (unusable_log_is_replaced "pre_tool_use"
                    [("sessionId"%string, JStr "s1"); ("tool"%string, JStr "Bash");
                     ("command"%string, JStr "ls")]
                    (set_file empty_world "pre_tool_use_s1.json"
                       (File (CutShort (JArr [JNull; JNull])) true true))
                    (CutShort (JArr [JNull; JNull])) true true eq_refl)
             eq_refl eq_refl).
    right; right. now eexists.
  - exact (proj1 (proj2 (unusable_log_is_replaced "pre_tool_use"
                           [("sessionId"%string, JStr "s1"); ("tool"%string, JStr "Bash");
                            ("command"%string, JStr "ls")]
                           (set_file empty_world "pre_tool_use_s1.json"
                              (File Undecodable true true))
                           Undecodable true true eq_refl) eq_refl) eq_refl).
Defined.

(* ===================================================================== *)
(** ** Many sessions in one directory *)
(* ===================================================================== *)

Lemma tidy_appendable w name :
  tidy w ->
  (files w !! name = None -> creatable w name = true) ->
  appendable w name = true.
Proof.
  intros (Hdir & Hshort & Hfiles) Hnew. unfold appendable. rewrite Hdir.
  destruct (files w !! name) as [f|] eqn:E; [|now apply Hnew].
  destruct (Hfiles name f E) as [records ->]. now rewrite Hshort.
Qed.

Lemma tidy_appended w name data :
  tidy w -> appended w name data = File (Text (JArr (previous w name ++ [data]))) true true.
Proof.
  intros (_ & _ & Hfiles). unfold appended.
  destruct (files w !! name) as [f|] eqn:E; [|reflexivity].
  destruct (Hfiles name f E) as [records ->]. reflexivity.
Qed.

Lemma tidy_set_file w name records :
  tidy w -> tidy (set_file w name (File (Text (JArr records)) true true)).
Proof.
  intros (Hdir & Hshort & Hfiles). split; [reflexivity|]. split; [exact Hshort|].
  intros name' f. unfold set_file, files at 1. simpl.
  destruct (decide (name = name')) as [<-|Hne].
  - rewrite lookup_insert_eq. intros H. injection H as <-. now eexists.
  - rewrite lookup_insert_ne by exact Hne. apply Hfiles.
Qed.

Lemma previous_set_file w name records name' :
  previous (set_file w name (File (Text (JArr records)) true true)) name'
  = if String.eqb name name' then records else previous w name'.
Proof.
  unfold previous, set_file, files at 1. simpl.
  destruct (String.eqb_spec name name') as [<-|Hne].
  - now rewrite lookup_insert_eq.
  - now rewrite lookup_insert_ne.
Qed.

(** Making a log leaves the other names as they were. *)
Lemma creatable_set_file w name f name' :
  creatable (set_file w name f) name' = creatable w name'.
Proof. reflexivity. Qed.

(** Records of any sessions, appended in a directory in order: every log
    gains the records that belong to it, in the order of the calls. *)
Lemma append_all_sorts stage : forall ds w,
  tidy w ->
  (forall d, In d ds ->
             files w !! log_file stage (session_of d) = None ->
             creatable w (log_file stage (session_of d)) = true) ->
  exists w',
    append_all (append_to_log stage) (map JObj ds) w = (Ok tt, w')
    /\ tidy w'
    /\ forall name,
        previous w' name = previous w name ++ map JObj (List.filter (logged_in stage name) ds).
Proof.
  induction ds as [|d ds IH]; intros w T Hnew.
  - exists w. split; [reflexivity|]. split; [exact T|].
    intros name. now rewrite app_nil_r.
  - pose proof (append_to_log_ok stage d w
                  (tidy_appendable w _ T (Hnew d (or_introl eq_refl)))) as Hstep.
    rewrite (tidy_appended w _ _ T) in Hstep.
    destruct (IH (set_file w (log_file stage (session_of d))
                    (File (Text (JArr (previous w (log_file stage (session_of d))
                                         ++ [JObj d]))) true true)))
      as (w' & Hrun & T' & Hlogs).
    + now apply tidy_set_file.
    + intros d' Hin Hnone. rewrite creatable_set_file.
      apply (Hnew d' (or_intror Hin)).
      unfold set_file, files at 1 in Hnone. simpl in Hnone.
      destruct (decide (log_file stage (session_of d) = log_file stage (session_of d')))
        as [E|Hne].
      * rewrite E, lookup_insert_eq in Hnone. discriminate Hnone.
      * now rewrite lookup_insert_ne in Hnone.
    + exists w'. split; [|split; [exact T'|]].
      * cbn [map append_all]. unfold mbind, io_bind. rewrite Hstep. exact Hrun.
      * intros name. rewrite Hlogs, previous_set_file. cbn [List.filter].
        change (logged_in stage name d)
          with (String.eqb (log_file stage (session_of d)) name).
        destruct (String.eqb_spec (log_file stage (session_of d)) name) as [<-|Hne].
        -- cbn [map]. now rewrite <- app_assoc.
        -- reflexivity.
Qed.

(** X16. Records of several sessions may arrive in any order: in a logs
    directory in order, where a log can be made for every record that has
    none yet, either recorder returns on each of them, and every log ends
    up with what it held followed by exactly the records of its session,
    in the order of the calls; no record is lost or put in the log of
    another session. *)
Theorem logs_sort_records_by_session (ds : list (list (string * json))) (w : world) :
  tidy w ->
  ((forall d, In d ds ->
              files w !! log_file "pre_tool_use" (session_of d) = None ->
              creatable w (log_file "pre_tool_use" (session_of d)) = true) ->
   exists w',
     append_all log_tool_call (map JObj ds) w = (Ok tt, w')
     /\ forall name,
         previous w' name
         = previous w name ++ map JObj (List.filter (logged_in "pre_tool_use" name) ds))
  /\ ((forall d, In d ds ->
                 files w !! log_file "post_tool_use" (session_of d) = None ->
                 creatable w (log_file "post_tool_use" (session_of d)) = true) ->
      exists w',
        append_all PostToolUse.log_tool_execution (map JObj ds) w = (Ok tt, w')
        /\ forall name,
            previous w' name
            = previous w name ++ map JObj (List.filter (logged_in "post_tool_use" name) ds)).
Proof.
  intros T. split; intros Hnew.
  - destruct (append_all_sorts "pre_tool_use" ds w T Hnew) as (w' & H & _ & L).
    now exists w'.
  - destruct (append_all_sorts "post_tool_use" ds w T Hnew) as (w' & H & _ & L).
    now exists w'.
Qed.

Lemma tidy_new_project : tidy new_project.
Proof.
  repeat split. intros name f H. unfold new_project, files in H. simpl in H.
  rewrite lookup_empty in H. discriminate H.
Qed.

Lemma logs_sort_records_by_session_witness :
  exists w',
    append_all log_tool_call
      [bash "a" "ls"; bash "b" "pwd"; bash "a" "rm -rf /"; record "b" "Read" []]
      new_project = (Ok tt, w')
    /\ previous w' "pre_tool_use_a.json" = [bash "a" "ls"; bash "a" "rm -rf /"]
    /\ previous w' "pre_tool_use_b.json" = [bash "b" "pwd"; record "b" "Read" []].
Proof.
  destruct (proj1 (logs_sort_records_by_session
                     [[("sessionId"%string, JStr "a"); ("tool"%string, JStr "Bash");
                       ("command"%string, JStr "ls")];
                      [("sessionId"%string, JStr "b"); ("tool"%string, JStr "Bash");
                       ("command"%string, JStr "pwd")];
                      [("sessionId"%string, JStr "a"); ("tool"%string, JStr "Bash");
                       ("command"%string, JStr "rm -rf /")];
                      [("sessionId"%string, JStr "b"); ("tool"%string, JStr "Read")]]
                     new_project tidy_new_project)
                  ltac:(intros d Hin _; simpl in Hin;
                        repeat (destruct Hin as [<-|Hin]; [reflexivity|]);
                        destruct Hin))
    as (w' & Hrun & Hlogs).
  exists w'. split; [exact Hrun|]. split.
  - exact (Hlogs "pre_tool_use_a.json"%string).
  - exact (Hlogs "pre_tool_use_b.json"%string).
Defined.

(* ===================================================================== *)
(** ** More on the rule on [.env] and on the logger *)
(* ===================================================================== *)

(** X17. Naming a template anywhere in a shell command switches the rule
    on [.env] off for the whole command: a command that holds
    [.env.sample] or [.env.example], and no [rm], is allowed even when it
    reads or writes [.env] itself. The record's [file_path], if it has
    one, does not hold [.env]. *)
Theorem template_name_allows_command (d : list (string * json)) (c p : string) :
  dict_get "tool" d = Some (JStr "Bash") ->
  dict_get "command" d = Some (JStr c) ->
  default (JStr "") (dict_get "file_path" d) = JStr p ->
  contains ".env" p = false ->
  contains ".env.sample" c = true \/ contains ".env.example" c = true ->
  contains "rm" c = false ->
  evaluate (JObj d) = Ok ALLOW.
Proof.
  intros Htool Hc Hp Np T R.
  rewrite (evaluate_tool d "Bash" Htool), (check_rules_bash d c p Hp Hc), Np.
  assert (E : env_command_fires c = false).
  { unfold env_command_fires.
    destruct T as [-> | ->]; now rewrite ?orb_true_r, ?andb_false_r. }
  assert (D : dangerous_rm_text (join " " (split c)) = false).
  { apply not_true_is_false. intros D. apply dangerous_needs_rm in D.
    apply contains_normalised in D; [|reflexivity]. now rewrite R in D. }
  now rewrite E, D.
Qed.

Lemma template_name_allows_command_witness :
  evaluate (bash "s1" "cat .env > /tmp/x; ls .env.sample") = Ok ALLOW.
Proof.
  apply (template_name_allows_command
           [("sessionId"%string, JStr "s1"); ("tool"%string, JStr "Bash");
            ("command"%string, JStr "cat .env > /tmp/x; ls .env.sample")]
           "cat .env > /tmp/x; ls .env.sample" ""); try reflexivity. now left.
Defined.

(** X18. On a record the logger ends with status 0, and prints nothing,
    exactly when its recorder returns: the directory is there or can be
    made; the log, if it is there and can be read, holds a list or a text
    that raises [JSONDecodeError]; if it is not there, its name has no NUL
    and can be looked up. Whether the write succeeds does not matter.
    Otherwise the recorder raises, nothing catches it, and the logger ends
    with status 1. *)
Theorem logger_succeeds_on_record (d : list (string * json)) (w : world) :
  (recorder_returns w (log_file "post_tool_use" (session_of d)) = true ->
   exists w',
     PostToolUse.log_tool_execution (JObj d) w = (Ok tt, w')
     /\ PostToolUse.main (Text (JObj d)) w = (Ok (Exit 0 []), w'))
  /\ (recorder_returns w (log_file "post_tool_use" (session_of d)) = false ->
      exists e w',
        PostToolUse.main (Text (JObj d)) w = (Raise e, w')
        /\ exit_status (fst (PostToolUse.main (Text (JObj d)) w)) = 1).
Proof.
  split; intros H.
  - destruct (append_to_log_returns "post_tool_use" d w H) as [w' Hlog].
    exists w'. split; [exact Hlog|].
    unfold PostToolUse.main. cbn [json_load]. unfold mbind, io_bind.
    unfold PostToolUse.log_tool_execution in *. now rewrite Hlog.
  - destruct (append_to_log_fails "post_tool_use" d w H) as [e Hlog].
    exists e. eexists.
    unfold PostToolUse.main. cbn [json_load]. unfold mbind, io_bind.
    unfold PostToolUse.log_tool_execution in *. rewrite Hlog. split; reflexivity.
Qed.

Lemma logger_succeeds_on_record_witness :
  (exists w',
      PostToolUse.log_tool_execution (bash "s1" "ls") read_only_logs = (Ok tt, w')
      /\ PostToolUse.main (Text (bash "s1" "ls")) read_only_logs = (Ok (Exit 0 []), w'))
  /\ (exists e w',
         PostToolUse.main (Text (bash nul_session "ls")) empty_world = (Raise e, w')
         /\ exit_status (fst (PostToolUse.main (Text (bash nul_session "ls")) empty_world))
            = 1).
Proof.
  split.
  - exact (proj1 (logger_succeeds_on_record
                    [("sessionId"%string, JStr "s1"); ("tool"%string, JStr "Bash");
                     ("command"%string, JStr "ls")] read_only_logs) eq_refl).
  - exact (proj2 (logger_succeeds_on_record
                    [("sessionId"%string, JStr nul_session); ("tool"%string, JStr "Bash");
                     ("command"%string, JStr "ls")] empty_world) eq_refl).
Defined.

(** X19. A log that reads and parses to something other than a list (an
    object, a string, a number, [true], [false] or [null]) stops both
    hooks on every record of its session: [logs.append] raises
    [AttributeError], which nothing catches, every file stays as it is,
    and the hooks end with status 1, the guard without having checked the
    record. *)
Theorem log_not_a_list_raises (d : list (string * json)) (w : world) (v : json)
        (wr : bool) (stage : string) :
  logs_dir_ok w = true ->
  files w !! log_file stage (session_of d) = Some (File (Text v) true wr) ->
  (forall records, v <> JArr records) ->
  append_to_log stage (JObj d) w = (Raise AttributeError, w)
  /\ (stage = "pre_tool_use"%string ->
      PreToolUse.main (Text (JObj d)) w = (Raise AttributeError, w))
  /\ (stage = "post_tool_use"%string ->
      PostToolUse.main (Text (JObj d)) w = (Raise AttributeError, w)).
Proof.
  intros Hdir Hfile Hv.
  pose proof (append_to_log_raises stage d w v wr Hdir Hfile Hv) as L.
  split; [exact L|]. split; intros ->.
  - rewrite guard_main_on_record. unfold log_tool_call. now rewrite L.
  - unfold PostToolUse.main, PostToolUse.log_tool_execution. cbn [json_load].
    unfold mbind, io_bind. now rewrite L.
Qed.

Lemma log_not_a_list_raises_witness :
  PreToolUse.main (Text (bash "s1" "rm -rf /"))
    (set_file empty_world "pre_tool_use_s1.json" (File (Text (JStr "[]")) true true))
  = (Raise AttributeError,
     set_file empty_world "pre_tool_use_s1.json" (File (Text (JStr "[]")) true true)).
Proof.
  refine (proj1 (proj2 (log_not_a_list_raises
                          [("sessionId"%string, JStr "s1"); ("tool"%string, JStr "Bash");
                           ("command"%string, JStr "rm -rf /")]
                          (set_file empty_world "pre_tool_use_s1.json"
                             (File (Text (JStr "[]")) true true))
                          (JStr "[]") true "pre_tool_use" eq_refl eq_refl _)) eq_refl).
  intros records H. discriminate H.
Defined.

(* ===================================================================== *)
(** ** The session and the decision *)
(* ===================================================================== *)

(** X20. The session never changes what the guard decides, only whether
    it gets to decide. Two records that agree on every key but
    [sessionId] get the same result from the rule checks, reason
    included. The guard ends the same way on both whenever the recorder
    returns for both sessions, and whenever it ends both with a status
    other than 1. *)
Theorem session_does_not_change_decision (d1 d2 : list (string * json)) (w : world) :
  (forall key, key <> "sessionId"%string -> dict_get key d1 = dict_get key d2) ->
  evaluate (JObj d1) = evaluate (JObj d2)
  /\ (recorder_returns w (log_file "pre_tool_use" (session_of d1)) = true ->
      recorder_returns w (log_file "pre_tool_use" (session_of d2)) = true ->
      fst (PreToolUse.main (Text (JObj d1)) w) = outcome_of (evaluate (JObj d1))
      /\ fst (PreToolUse.main (Text (JObj d2)) w) = outcome_of (evaluate (JObj d1)))
  /\ (exit_status (fst (PreToolUse.main (Text (JObj d1)) w)) <> 1 ->
      exit_status (fst (PreToolUse.main (Text (JObj d2)) w)) <> 1 ->
      fst (PreToolUse.main (Text (JObj d1)) w) = fst (PreToolUse.main (Text (JObj d2)) w)).
Proof.
  intros H.
  assert (E : evaluate (JObj d1) = evaluate (JObj d2)).
  { assert (Ht := H "tool"%string ltac:(discriminate)).
    assert (Hf := H "file_path"%string ltac:(discriminate)).
    assert (Hc := H "command"%string ltac:(discriminate)).
    unfold evaluate, check_rules, is_env_file_access, get.
    rewrite Ht, Hf, Hc. reflexivity. }
  split; [exact E|]. rewrite !guard_main_on_record, <- E. unfold log_tool_call. split.
  - intros R1 R2.
    destruct (append_to_log_returns "pre_tool_use" d1 w R1) as [w1 ->].
    destruct (append_to_log_returns "pre_tool_use" d2 w R2) as [w2 ->].
    split; reflexivity.
  - destruct (append_to_log "pre_tool_use" (JObj d1) w) as [[[]|e1] w1];
      destruct (append_to_log "pre_tool_use" (JObj d2) w) as [[[]|e2] w2];
      cbn [fst exit_status]; intros N1 N2; try reflexivity; now (elim N1 || elim N2).
Qed.

Lemma session_does_not_change_decision_witness :
  evaluate (bash "session-a" "rm -rf /") = evaluate (bash "session-b" "rm -rf /")
  /\ fst (PreToolUse.main (Text (bash "session-a" "rm -rf /")) new_project)
     = Ok (Exit 2 (rm_reason "rm -rf /"))
  /\ fst (PreToolUse.main (Text (bash "session-b" "rm -rf /")) new_project)
     = Ok (Exit 2 (rm_reason "rm -rf /")).
Proof.
  destruct (session_does_not_change_decision
              [("sessionId"%string, JStr "session-a"); ("tool"%string, JStr "Bash");
               ("command"%string, JStr "rm -rf /")]
              [("sessionId"%string, JStr "session-b"); ("tool"%string, JStr "Bash");
               ("command"%string, JStr "rm -rf /")]
              new_project) as (H1 & H2 & _).
  { intros key Hk. unfold dict_get.
    destruct (String.eqb_spec "sessionId" key) as [E|_]; [now elim Hk | reflexivity]. }
  split; [exact H1|]. exact (H2 eq_refl eq_refl).
Defined.
